(** * Minimal-Pair-Test: scheduler, progress store and audio pipeline of app.py

    A shallow embedding of the core of [app.py] (the spaced-repetition
    scheduler, the JSON progress store and the audio generation pipeline)
    together with the properties of it stated in the specification.

    Conventions of the embedding.
    - A Python [datetime] is the number of microseconds since the first
      instant the type can hold, an integer; a [timedelta] is a number of
      microseconds.  The calendar range of [datetime] is not modelled.
    - A Python [int] is a [Z]; a Python [float] is an exact rational [Q]
      (NaN and the infinities are not modelled).
    - [st.session_state], the clock, the random generator, the progress
      file, the audio directory and the messages shown with [st.error] and
      the like form one [world], threaded through a state-and-exception
      monad [M]. *)

From Stdlib Require Import QArith Qround Ascii String.
From Stdlib Require Import DecimalString DecimalPos DecimalZ.
From stdpp Require Import gmap strings list fin_maps sorting.

Open Scope Z_scope.

(** ** Data *)

(** The two slot labels ['A'] and ['B']. *)
Inductive label := LA | LB.

Global Instance label_eq_dec : EqDecision label.
Proof. solve_decision. Defined.

Global Instance label_countable : Countable label.
Proof.
  refine (inj_countable' (λ l, match l with LA => false | LB => true end)
                         (λ b : bool, if b then LB else LA) _).
  by intros [].
Defined.

(** One entry of [st.session_state.progress]. *)
Record ItemProgress := {
  correct_streak : Z;
  ease_factor : Q;
  interval_days : Q;
  next_review : Z;
  ever_correct : bool
}.

(** One entry of [st.session_state.daily_stats]. *)
Record DailyStat := {
  questions_answered : Z;
  correct_answers : Z;
  started_at : string
}.

(** The attributes of [st.session_state] that the core reads or writes.
    [last_shown_type = None] stands for the attribute being absent
    ([hasattr] false). *)
Record session_state := {
  progress : gmap Z ItemProgress;
  session_correct : Z;
  session_total : Z;
  current_streak : Z;
  daily_stats : gmap string DailyStat;
  extra_questions_added : Z;
  last_shown_type : option string
}.

(** A row of the catalogue [df]; a cell of a text column is [None] when
    pandas holds NaN for it. *)
Record row := {
  col_Type : string;
  col_Word1_Kana : string;
  col_Word1_Kanji : option string;
  col_Word2_Kana : string;
  col_Word2_Kanji : option string
}.

(** *** The progress file *)

(** An entry of the ["progress"] object of a snapshot; a field is [None]
    when the key is missing from the entry. *)
Record entry_doc := {
  doc_correct_streak : option Z;
  doc_ease_factor : option Q;
  doc_interval_days : option Q;
  doc_next_review : option string;
  doc_ever_correct : option bool
}.

(** The JSON object held by a snapshot, as [json.load] returns it; a
    top-level key is [None] when it is missing.  The ["progress"] object is
    kept as its list of members, in file order. *)
Record snapshot_doc := {
  doc_progress : option (list (string * entry_doc));
  doc_session_correct : option Z;
  doc_session_total : option Z;
  doc_current_streak : option Z;
  doc_daily_stats : option (gmap string DailyStat);
  doc_last_saved : option string
}.

(** What [PROGRESS_FILE] holds: text on which [json.load] raises, or a
    document. *)
Inductive file_content :=
  | Unparsable
  | Document (d : snapshot_doc).

(** *** The audio directory and the synthesis service *)

(** [AUDIO_DIR / f"{i}_A.wav"] and [AUDIO_DIR / f"{i}_B.wav"]: a path is
    determined by the pair id and the label. *)
Abbreviation path := (Z * label)%type (only parsing).

(** What one run of [generate_audio_tts] does for a text and a path: the
    two requests succeed and the bytes are written; a request raises before
    the file is opened; or the file is opened and the write raises, leaving
    [partial] behind. *)
Inductive tts_outcome :=
  | Synthesised (wav : string)
  | RequestFailed
  | WriteFailed (partial : string).

Abbreviation task := (Z * label * string * path)%type (only parsing).

(** *** Exceptions and messages *)

Inductive exn :=
  | KeyError
  | IndexError
  | ValueError
  | JSONDecodeError
  | OSError.

Inductive result (T : Type) :=
  | Ok (v : T)
  | Raise (e : exn).
Arguments Ok {T} v.
Arguments Raise {T} e.

Global Instance result_fmap : FMap result :=
  λ T U f r, match r with Ok v => Ok (f v) | Raise e => Raise e end.

(** The calls of [st.error], [st.info] and [st.success] made by the core. *)
Inductive ui_msg :=
  | error_save (e : exn)
  | error_load (e : exn)
  | error_tts (text : string)
  | error_failed_audio (n : nat)
  | info_generating (n : nat)
  | success_all_exist (n : Z)
  | success_generated (n : nat).

(** ** The world *)

Record world := {
  st : session_state;
  (** [clock k] is what the [k]-th call of [datetime.now()] returns;
      [ticks] counts the calls made so far. *)
  clock : nat → Z;
  ticks : nat;
  (** [rng k] is the [k]-th raw draw of the random generator; [draws]
      counts the draws made so far. *)
  rng : nat → nat;
  draws : nat;
  (** [PROGRESS_FILE]: [None] when the file does not exist. *)
  progress_file : option file_content;
  (** Whether opening [PROGRESS_FILE] for writing succeeds. *)
  disk_writable : bool;
  (** The [.wav] files of [AUDIO_DIR], with their contents. *)
  audio_files : gmap path string;
  (** The synthesis service and the disk, as seen by one task: what happens
      for a text, a speaker id and a destination. *)
  tts : string → Z → path → tts_outcome;
  (** The order in which [as_completed] yields the futures of the
      submitted tasks. *)
  completion_order : list task → list task;
  (** The messages shown so far, oldest first. *)
  ui : list ui_msg
}.

Definition set_st (f : session_state → session_state) (w : world) : world :=
  {| st := f (st w); clock := clock w; ticks := ticks w; rng := rng w;
     draws := draws w; progress_file := progress_file w;
     disk_writable := disk_writable w; audio_files := audio_files w;
     tts := tts w; completion_order := completion_order w; ui := ui w |}.

Definition set_ticks (n : nat) (w : world) : world :=
  {| st := st w; clock := clock w; ticks := n; rng := rng w;
     draws := draws w; progress_file := progress_file w;
     disk_writable := disk_writable w; audio_files := audio_files w;
     tts := tts w; completion_order := completion_order w; ui := ui w |}.

Definition set_draws (n : nat) (w : world) : world :=
  {| st := st w; clock := clock w; ticks := ticks w; rng := rng w;
     draws := n; progress_file := progress_file w;
     disk_writable := disk_writable w; audio_files := audio_files w;
     tts := tts w; completion_order := completion_order w; ui := ui w |}.

Definition set_progress_file (f : option file_content) (w : world) : world :=
  {| st := st w; clock := clock w; ticks := ticks w; rng := rng w;
     draws := draws w; progress_file := f;
     disk_writable := disk_writable w; audio_files := audio_files w;
     tts := tts w; completion_order := completion_order w; ui := ui w |}.

Definition set_audio_files (f : gmap path string → gmap path string)
    (w : world) : world :=
  {| st := st w; clock := clock w; ticks := ticks w; rng := rng w;
     draws := draws w; progress_file := progress_file w;
     disk_writable := disk_writable w; audio_files := f (audio_files w);
     tts := tts w; completion_order := completion_order w; ui := ui w |}.

Definition add_ui (m : ui_msg) (w : world) : world :=
  {| st := st w; clock := clock w; ticks := ticks w; rng := rng w;
     draws := draws w; progress_file := progress_file w;
     disk_writable := disk_writable w; audio_files := audio_files w;
     tts := tts w; completion_order := completion_order w;
     ui := ui w ++ [m] |}.

Definition set_progress (f : gmap Z ItemProgress → gmap Z ItemProgress)
    (s : session_state) : session_state :=
  {| progress := f (progress s); session_correct := session_correct s;
     session_total := session_total s; current_streak := current_streak s;
     daily_stats := daily_stats s;
     extra_questions_added := extra_questions_added s;
     last_shown_type := last_shown_type s |}.

Definition set_last_shown_type (t : string) (s : session_state)
    : session_state :=
  {| progress := progress s; session_correct := session_correct s;
     session_total := session_total s; current_streak := current_streak s;
     daily_stats := daily_stats s;
     extra_questions_added := extra_questions_added s;
     last_shown_type := Some t |}.

(** ** The monad of the program: state and exceptions *)

Definition M (T : Type) : Type := world → result T * world.

Definition ret {T} (v : T) : M T := λ w, (Ok v, w).

Definition bind {T U} (c : M T) (k : T → M U) : M U :=
  λ w, match c w with
       | (Ok v, w') => k v w'
       | (Raise e, w') => (Raise e, w')
       end.

Definition raise {T} (e : exn) : M T := λ w, (Raise e, w).

(** [try: c except Exception as e: h e] *)
Definition try_except {T} (c : M T) (h : exn → M T) : M T :=
  λ w, match c w with
       | (Ok v, w') => (Ok v, w')
       | (Raise e, w') => h e w'
       end.

Definition get : M world := λ w, (Ok w, w).
Definition modify (f : world → world) : M unit := λ w, (Ok (), f w).

Declare Scope prog_scope.
Delimit Scope prog_scope with prog.
Notation "x <- c ;; k" := (bind c (λ x, k))
  (at level 100, c at next level, right associativity) : prog_scope.
Notation "c ;;; k" := (bind c (λ _, k))
  (at level 100, right associativity) : prog_scope.
Open Scope prog_scope.

(** [for x in l: body x] *)
Fixpoint for_each {T} (l : list T) (body : T → M unit) : M unit :=
  match l with
  | [] => ret ()
  | x :: l' => body x ;;; for_each l' body
  end.

(** [datetime.now()] *)
Definition datetime_now : M Z :=
  λ w, (Ok (clock w (ticks w)), set_ticks (S (ticks w)) w).

(** [timedelta(days=d)] and [timedelta(minutes=m)], in microseconds. *)
Definition timedelta_days (d : Z) : Z := d * 86400000000.
Definition timedelta_minutes (m : Z) : Z := m * 60000000.

(** [random._randbelow(n)] for [n > 0]: one draw, reduced below [n]. *)
Definition randbelow (n : nat) : M nat :=
  λ w, (Ok (rng w (draws w) `mod` n)%nat, set_draws (S (draws w)) w).

(** [random.random() < 0.5]: one draw decides. *)
Definition random_lt_half : M bool :=
  λ w, (Ok (Nat.even (rng w (draws w))), set_draws (S (draws w)) w).

(** [random.choice(seq)]: [IndexError] on an empty sequence, else
    [seq[randbelow(len(seq))]]. *)
Definition random_choice {T} (seq : list T) : M T :=
  match seq with
  | [] => raise IndexError
  | _ :: _ =>
      i <- randbelow (length seq) ;;
      match seq !! i with
      | Some x => ret x
      | None => raise IndexError
      end
  end.

(** [st.error(...)] and the other message calls. *)
Definition st_message (m : ui_msg) : M unit := modify (add_ui m).

(** ** Text helpers *)

(** ASCII whitespace, as [str.strip()] removes it (characters are bytes
    here). *)
Definition is_space (c : ascii) : bool :=
  let n := nat_of_ascii c in
  ((9 <=? n)%nat && (n <=? 13)%nat) || ((28 <=? n)%nat && (n <=? 32)%nat).

Fixpoint lstrip (s : string) : string :=
  match s with
  | EmptyString => EmptyString
  | String c s' => if is_space c then lstrip s' else s
  end.

Fixpoint string_rev_onto (s acc : string) : string :=
  match s with
  | EmptyString => acc
  | String c s' => string_rev_onto s' (String c acc)
  end.

(** [s.strip()] *)
Definition strip (s : string) : string :=
  string_rev_onto (lstrip (string_rev_onto (lstrip s) EmptyString)) EmptyString.

(** [s.split(d)] for a one-character delimiter. *)
Fixpoint split (d : ascii) (s : string) : list string :=
  match s with
  | EmptyString => [EmptyString]
  | String c s' =>
      if Ascii.eqb c d then EmptyString :: split d s'
      else match split d s' with
           | p :: ps => String c p :: ps
           | [] => [String c EmptyString]
           end
  end.

Definition nonempty (s : string) : bool :=
  match s with EmptyString => false | String _ _ => true end.

(** [[p.strip() for p in text.split(delimiter) if p.strip()]] *)
Definition stripped_parts (delimiter : ascii) (text : string) : list string :=
  strip <$> filter (λ p, nonempty (strip p) = true) (split delimiter text).

Fixpoint first_word_by (delimiters : list ascii) (text : string) : string :=
  match delimiters with
  | [] => strip text
  | delimiter :: rest =>
      match stripped_parts delimiter text with
      | p :: _ => p
      | [] => first_word_by rest text
      end
  end.

Definition extract_first_word (text : option string) : string :=
  match text with
  | None => EmptyString
  | Some text => first_word_by ["," ; "010" ; " "]%char text
  end.

(** ** Configuration & Constants *)

Definition SPEAKER_IDS : list Z := [13].
Definition DAILY_TARGET : Z := 20.

(** ** Small steps shared by the functions of app.py *)

(** [st.session_state.progress[pair_id]], a [KeyError] when absent. *)
Definition progress_get (pair_id : Z) : M ItemProgress :=
  w <- get ;;
  match progress (st w) !! pair_id with
  | Some p => ret p
  | None => raise KeyError
  end.

(** [progress[field] = v] on the dictionary stored under [pair_id]: the
    dictionary is updated in place. *)
Definition progress_set (pair_id : Z) (f : ItemProgress → ItemProgress)
    : M unit :=
  modify (set_st (set_progress (alter f pair_id))).

Definition with_correct_streak (v : Z) (p : ItemProgress) : ItemProgress :=
  {| correct_streak := v; ease_factor := ease_factor p;
     interval_days := interval_days p; next_review := next_review p;
     ever_correct := ever_correct p |}.

Definition with_interval_days (v : Q) (p : ItemProgress) : ItemProgress :=
  {| correct_streak := correct_streak p; ease_factor := ease_factor p;
     interval_days := v; next_review := next_review p;
     ever_correct := ever_correct p |}.

Definition with_next_review (v : Z) (p : ItemProgress) : ItemProgress :=
  {| correct_streak := correct_streak p; ease_factor := ease_factor p;
     interval_days := interval_days p; next_review := v;
     ever_correct := ever_correct p |}.

Definition with_ever_correct (v : bool) (p : ItemProgress) : ItemProgress :=
  {| correct_streak := correct_streak p; ease_factor := ease_factor p;
     interval_days := interval_days p; next_review := next_review p;
     ever_correct := v |}.

(** [int(x)] on a float: truncation towards zero. *)
Definition int_of_float (x : Q) : Z := Z.quot (Qnum x) (Zpos (Qden x)).

(** [df.iloc[i]]: rows are counted from the end for a negative [i];
    [IndexError] out of range. *)
Definition iloc (df : list row) (i : Z) : M row :=
  let n := Z.of_nat (length df) in
  let k := if 0 <=? i then i else n + i in
  if (0 <=? k) && (k <? n) then
    match df !! Z.to_nat k with
    | Some r => ret r
    | None => raise IndexError
    end
  else raise IndexError.

(** [range(n)] *)
Definition range (n : nat) : list Z := seqZ 0 (Z.of_nat n).

(** [d[k]] on a dictionary read from JSON. *)
Definition subscript {T} (o : option T) : result T :=
  match o with
  | Some v => Ok v
  | None => Raise KeyError
  end.

(** [d.get(k, default)] *)
Definition get_default {T} (o : option T) (d : T) : T :=
  match o with
  | Some v => v
  | None => d
  end.

Definition lift {T} (r : result T) : M T := λ w, (r, w).

Section WithLibrary.

(** The conversions between values and text that the Python library
    provides: [str] of an [int] (as [json.dump] writes a dictionary
    key) and [int] of a string, [datetime.isoformat] and
    [datetime.fromisoformat], and [strftime("%Y-%m-%d")].  A conversion
    from text fails with [None] where Python raises [ValueError]. *)
Variable str_of_int : Z → string.
Variable int_of_str : string → option Z.
Variable isoformat : Z → string.
Variable fromisoformat : string → option Z.
Variable strftime_Ymd : Z → string.

Definition parse {T} (o : option T) : result T :=
  match o with
  | Some v => Ok v
  | None => Raise ValueError
  end.

(** *** Local Storage Functions *)

Definition serializable_entry (data : ItemProgress) : entry_doc :=
  {| doc_correct_streak := Some (correct_streak data);
     doc_ease_factor := Some (ease_factor data);
     doc_interval_days := Some (interval_days data);
     doc_next_review := Some (isoformat (next_review data));
     doc_ever_correct := Some (ever_correct data) |}.

(** [open(PROGRESS_FILE, 'w')] followed by [json.dump]. *)
Definition write_progress_file (save_data : snapshot_doc) : M unit :=
  w <- get ;;
  if disk_writable w
  then modify (set_progress_file (Some (Document save_data)))
  else raise OSError.

Definition save_progress : M bool :=
  try_except
    (w <- get ;;
     let serializable_progress :=
       (λ kv, (str_of_int kv.1, serializable_entry kv.2))
         <$> map_to_list (progress (st w)) in
     now <- datetime_now ;;
     let save_data :=
       {| doc_progress := Some serializable_progress;
          doc_session_correct := Some (session_correct (st w));
          doc_session_total := Some (session_total (st w));
          doc_current_streak := Some (current_streak (st w));
          doc_daily_stats := Some (daily_stats (st w));
          doc_last_saved := Some (isoformat now) |} in
     write_progress_file save_data ;;;
     ret true)
    (λ e, st_message (error_save e) ;;; ret false).

(** The dictionary built for one entry of the snapshot. *)
Definition loaded_entry (data : entry_doc) : result ItemProgress :=
  match subscript (doc_correct_streak data) with
  | Raise e => Raise e
  | Ok cs =>
  match subscript (doc_ease_factor data) with
  | Raise e => Raise e
  | Ok ef =>
  match subscript (doc_interval_days data) with
  | Raise e => Raise e
  | Ok iv =>
  match subscript (doc_next_review data) with
  | Raise e => Raise e
  | Ok text =>
  match parse (fromisoformat text) with
  | Raise e => Raise e
  | Ok nr =>
  match subscript (doc_ever_correct data) with
  | Raise e => Raise e
  | Ok ec =>
      Ok {| correct_streak := cs; ease_factor := ef; interval_days := iv;
            next_review := nr; ever_correct := ec |}
  end end end end end end.

(** The loop of [load_progress] over the members of ["progress"]. *)
Fixpoint load_entries (items : list (string * entry_doc))
    (loaded_progress : gmap Z ItemProgress)
    : result (gmap Z ItemProgress) :=
  match items with
  | [] => Ok loaded_progress
  | (pair_id, data) :: items' =>
      match loaded_entry data with
      | Raise e => Raise e
      | Ok p =>
          match parse (int_of_str pair_id) with
          | Raise e => Raise e
          | Ok k => load_entries items' (<[k := p]> loaded_progress)
          end
      end
  end.

(** [json.load] on the open file. *)
Definition json_load (c : file_content) : result snapshot_doc :=
  match c with
  | Unparsable => Raise JSONDecodeError
  | Document d => Ok d
  end.

Definition load_progress : M bool :=
  try_except
    (w <- get ;;
     match progress_file w with
     | None => ret false
     | Some c =>
         save_data <- lift (json_load c) ;;
         loaded_progress <-
           lift (load_entries (get_default (doc_progress save_data) []) ∅) ;;
         modify (set_st (λ s,
           {| progress := loaded_progress;
              session_correct := get_default (doc_session_correct save_data) 0;
              session_total := get_default (doc_session_total save_data) 0;
              current_streak := get_default (doc_current_streak save_data) 0;
              daily_stats := get_default (doc_daily_stats save_data) ∅;
              extra_questions_added := extra_questions_added s;
              last_shown_type := last_shown_type s |})) ;;;
         ret true
     end)
    (λ e, st_message (error_load e) ;;; ret false).

(** What [get_today_stats] returns.  Its third field, the accuracy in
    per cent, is a floating-point quotient read by the dashboard only
    and is left out. *)
Record today_stats := {
  ts_questions_answered : Z;
  ts_correct_answers : Z
}.

Definition get_today_stats : M today_stats :=
  now <- datetime_now ;;
  let today := strftime_Ymd now in
  w <- get ;;
  match daily_stats (st w) !! today with
  | None => ret {| ts_questions_answered := 0; ts_correct_answers := 0 |}
  | Some stats =>
      ret {| ts_questions_answered := questions_answered stats;
             ts_correct_answers := correct_answers stats |}
  end.

Definition daily_target_reached : M bool :=
  today_stats <- get_today_stats ;;
  w <- get ;;
  let current_target := DAILY_TARGET + extra_questions_added (st w) in
  ret (current_target <=? ts_questions_answered today_stats).

(** *** Session State Initialization *)

(** The values [init_session_state] gives to the attributes of a new
    session. *)
Definition new_session_state : session_state :=
  {| progress := ∅; session_correct := 0; session_total := 0;
     current_streak := 0; daily_stats := ∅; extra_questions_added := 0;
     last_shown_type := None |}.

(** [init_session_state] at the start of a process, when
    [st.session_state] has no attribute yet: every attribute gets its
    default and the saved progress is loaded. *)
Definition init_session_state : M unit :=
  modify (set_st (λ _, new_session_state)) ;;;
  _ <- load_progress ;;
  ret ().

(** *** SRS Logic *)

Definition init_pair_progress (pair_id : Z) : M unit :=
  w <- get ;;
  match progress (st w) !! pair_id with
  | Some _ => ret ()
  | None =>
      now <- datetime_now ;;
      modify (set_st (set_progress (<[pair_id :=
        {| correct_streak := 0; ease_factor := 2.5; interval_days := 0;
           next_review := now; ever_correct := false |}]>)))
  end.

(** The new interval, computed once the streak has been incremented. *)
Definition new_interval (p : ItemProgress) : Z :=
  if correct_streak p =? 1 then 1
  else Z.max 1 (int_of_float (interval_days p * ease_factor p)).

Definition update_progress (pair_id : Z) (is_correct : bool) : M unit :=
  init_pair_progress pair_id ;;;
  _ <- progress_get pair_id ;;
  (if is_correct then
     p <- progress_get pair_id ;;
     progress_set pair_id (with_correct_streak (correct_streak p + 1)) ;;;
     progress_set pair_id (with_ever_correct true) ;;;
     p <- progress_get pair_id ;;
     let interval := new_interval p in
     progress_set pair_id (with_interval_days (inject_Z interval)) ;;;
     if interval <? 1 then
       now <- datetime_now ;;
       progress_set pair_id
         (with_next_review
            (now + timedelta_minutes (Z.max 1 (interval * 1440))))
     else
       now <- datetime_now ;;
       progress_set pair_id
         (with_next_review (now + timedelta_days interval))
   else
     progress_set pair_id (with_correct_streak 0) ;;;
     progress_set pair_id (with_interval_days 0) ;;;
     now <- datetime_now ;;
     progress_set pair_id (with_next_review now)) ;;;
  _ <- save_progress ;;
  ret ().

(** [due_pairs.sort(key=lambda x: x[1])]: a stable sort on the second
    component. *)
Fixpoint insert_by_time (p : Z * Z * string) (l : list (Z * Z * string))
    : list (Z * Z * string) :=
  match l with
  | [] => [p]
  | q :: l' =>
      if p.1.2 <=? q.1.2 then p :: q :: l' else q :: insert_by_time p l'
  end.

Fixpoint sort_by_time (l : list (Z * Z * string)) : list (Z * Z * string) :=
  match l with
  | [] => []
  | p :: l' => insert_by_time p (sort_by_time l')
  end.

(** The first loop of [select_next_pair]. *)
Fixpoint scan_due (df : list row) (now : Z) (ids : list Z)
    (due_pairs : list (Z * Z * string)) : M (list (Z * Z * string)) :=
  match ids with
  | [] => ret due_pairs
  | pair_id :: ids' =>
      init_pair_progress pair_id ;;;
      p <- progress_get pair_id ;;
      if next_review p <=? now then
        r <- iloc df pair_id ;;
        scan_due df now ids'
          (due_pairs ++ [(pair_id, next_review p, col_Type r)])
      else scan_due df now ids' due_pairs
  end.

Definition select_next_pair (df : list row) : M (option Z) :=
  now <- datetime_now ;;
  due_pairs <- scan_due df now (range (length df)) [] ;;
  match due_pairs with
  | [] => ret None
  | _ :: _ =>
      let due_pairs := sort_by_time due_pairs in
      first <- match due_pairs with
               | p :: _ => ret p
               | [] => raise IndexError
               end ;;
      let earliest_time := first.1.2 in
      let time_window := timedelta_minutes 5 in
      let urgent_pairs :=
        filter (λ p, p.1.2 ≤ earliest_time + time_window) due_pairs in
      w <- get ;;
      selected <-
        match (if (1 <? length urgent_pairs)%nat
               then last_shown_type (st w) else None) with
        | Some last =>
            let different_type_pairs :=
              filter (λ p, p.2 ≠ last) urgent_pairs in
            match different_type_pairs with
            | _ :: _ => random_choice different_type_pairs
            | [] => random_choice urgent_pairs
            end
        | None =>
            if (1 <? length urgent_pairs)%nat
            then random_choice urgent_pairs
            else
              match urgent_pairs with
              | p :: _ => ret p
              | [] => raise IndexError
              end
        end ;;
      modify (set_st (set_last_shown_type selected.2)) ;;;
      ret (Some selected.1.1)
  end.

(** The loop of [session_complete]; it returns from inside. *)
Fixpoint all_reviewed (now : Z) (ids : list Z) : M bool :=
  match ids with
  | [] => ret true
  | pair_id :: ids' =>
      init_pair_progress pair_id ;;;
      p <- progress_get pair_id ;;
      if negb (ever_correct p) || (next_review p <=? now)
      then ret false
      else all_reviewed now ids'
  end.

Definition session_complete (df : list row) : M bool :=
  reached <- daily_target_reached ;;
  if reached then ret true
  else
    now <- datetime_now ;;
    all_reviewed now (range (length df)).

(** *** Question Generation *)

Record question := {
  q_pair_id : Z;
  q_sequence : list label;
  q_correct_position : Z;
  q_majority : label;
  q_odd : label;
  q_word1_kana : string;
  q_word1_kanji : string;
  q_word2_kana : string;
  q_word2_kanji : string;
  q_type : string
}.

(** [x[i], x[j] = x[j], x[i]] *)
Definition swap {T} (x : list T) (i j : nat) : list T :=
  match x !! j, x !! i with
  | Some xj, Some xi => <[j := xi]> (<[i := xj]> x)
  | _, _ => x
  end.

(** [random.shuffle(x)]: for [i] from [len(x) - 1] down to [1], exchange
    [x[i]] with [x[randbelow(i + 1)]]. *)
Fixpoint shuffle_down {T} (i : nat) (x : list T) : M (list T) :=
  match i with
  | O => ret x
  | S i' =>
      j <- randbelow (S i) ;;
      shuffle_down i' (swap x i j)
  end.

Definition random_shuffle {T} (x : list T) : M (list T) :=
  shuffle_down (length x - 1) x.

(** [sequence.index(v)]: the first position of [v]; [ValueError] when
    absent. *)
Fixpoint index_from (v : label) (sequence : list label) (i : Z) : M Z :=
  match sequence with
  | [] => raise ValueError
  | x :: rest =>
      if decide (x = v) then ret i else index_from v rest (i + 1)
  end.

Definition list_index (v : label) (sequence : list label) : M Z :=
  index_from v sequence 0.

Definition create_question (pair_id : Z) (df : list row) : M question :=
  r <- iloc df pair_id ;;
  heads <- random_lt_half ;;
  let majority := if heads then LA else LB in
  let odd := if heads then LB else LA in
  sequence <- random_shuffle [majority; majority; majority; odd] ;;
  i <- list_index odd sequence ;;
  let correct_position := i + 1 in
  ret {| q_pair_id := pair_id;
         q_sequence := sequence;
         q_correct_position := correct_position;
         q_majority := majority;
         q_odd := odd;
         q_word1_kana := col_Word1_Kana r;
         q_word1_kanji := extract_first_word (col_Word1_Kanji r);
         q_word2_kana := col_Word2_Kana r;
         q_word2_kanji := extract_first_word (col_Word2_Kanji r);
         q_type := col_Type r |}.

End WithLibrary.

(** ** Audio Generation *)

(** What [generate_single_audio] returns: the outcome, the pair id, the
    label and, when the call itself raised, the text of the exception. *)
Abbreviation task_result :=
  (bool * Z * label * option exn)%type (only parsing).

Definition generate_audio_tts (text : string) (output_path : path) : M bool :=
  try_except
    (speaker_id <- random_choice SPEAKER_IDS ;;
     w <- get ;;
     match tts w text speaker_id output_path with
     | Synthesised wav =>
         modify (set_audio_files (<[output_path := wav]>)) ;;;
         ret true
     | RequestFailed => raise OSError
     | WriteFailed partial =>
         modify (set_audio_files (<[output_path := partial]>)) ;;;
         raise OSError
     end)
    (λ e, st_message (error_tts text) ;;; ret false).

Definition generate_single_audio (args : task) : M task_result :=
  let '(pair_id, word_type, text, output_path) := args in
  try_except
    (ok <- generate_audio_tts text output_path ;;
     if ok then ret (true, pair_id, word_type, None)
     else ret (false, pair_id, word_type, None))
    (λ e, ret (false, pair_id, word_type, Some e)).

(** The scan for missing files. *)
Fixpoint scan_missing (ids : list Z) (missing_files : list (Z * label))
    : M (list (Z * label)) :=
  match ids with
  | [] => ret missing_files
  | i :: ids' =>
      w <- get ;;
      let missing_files :=
        if decide (is_Some (audio_files w !! (i, LA))) then missing_files
        else missing_files ++ [(i, LA)] in
      let missing_files :=
        if decide (is_Some (audio_files w !! (i, LB))) then missing_files
        else missing_files ++ [(i, LB)] in
      scan_missing ids' missing_files
  end.

(** The loop that prepares the tasks. *)
Fixpoint prepare_tasks (df : list row) (missing_files : list (Z * label))
    (tasks : list task) : M (list task) :=
  match missing_files with
  | [] => ret tasks
  | (pair_id, word_type) :: rest =>
      r <- iloc df pair_id ;;
      let text :=
        match word_type with
        | LA => extract_first_word (col_Word1_Kanji r)
        | LB => extract_first_word (col_Word2_Kanji r)
        end in
      let output_path : path := (pair_id, word_type) in
      prepare_tasks df rest (tasks ++ [(pair_id, word_type, text, output_path)])
  end.

(** The pool: every submitted task runs once; the results are consumed in
    the order of completion, a failed one being appended to [failed]
    without its first component. *)
Fixpoint run_completed (done : list task) (failed : list (Z * label * option exn))
    : M (list (Z * label * option exn)) :=
  match done with
  | [] => ret failed
  | t :: rest =>
      res <- generate_single_audio t ;;
      let '(ok, pair_id, word_type, e) := res in
      run_completed rest
        (if ok then failed else failed ++ [(pair_id, word_type, e)])
  end.

(** The local variables of one call of [generate_all_audio], with the value
    returned. *)
Record audio_run := {
  run_missing_files : list (Z * label);
  run_tasks : list task;
  run_failed : list (Z * label * option exn);
  run_returned : bool
}.

(** [AUDIO_DIR.mkdir(exist_ok=True)] has no effect on the files of the
    directory and is left out. *)
Definition generate_all_audio_run (df : list row) : M audio_run :=
  let total_files := Z.of_nat (length df) * 2 in
  missing_files <- scan_missing (range (length df)) [] ;;
  match missing_files with
  | [] =>
      st_message (success_all_exist total_files) ;;;
      ret {| run_missing_files := []; run_tasks := []; run_failed := [];
             run_returned := true |}
  | _ :: _ =>
      st_message (info_generating (length missing_files)) ;;;
      tasks <- prepare_tasks df missing_files [] ;;
      w <- get ;;
      failed <- run_completed (completion_order w tasks) [] ;;
      match failed with
      | _ :: _ =>
          st_message (error_failed_audio (length failed)) ;;;
          ret {| run_missing_files := missing_files; run_tasks := tasks;
                 run_failed := failed; run_returned := false |}
      | [] =>
          st_message (success_generated (length missing_files)) ;;;
          ret {| run_missing_files := missing_files; run_tasks := tasks;
                 run_failed := failed; run_returned := true |}
      end
  end.

Definition generate_all_audio (df : list row) : M bool :=
  r <- generate_all_audio_run df ;;
  ret (run_returned r).

(** ** Notions used in the statements *)

(** The entry [init_pair_progress] creates when the clock reads [now]. *)
Definition new_entry (now : Z) : ItemProgress :=
  {| correct_streak := 0; ease_factor := 2.5; interval_days := 0;
     next_review := now; ever_correct := false |}.

(** The entry of [pair_id] an answer is recorded on: the stored one, or the
    one [init_pair_progress] creates first. *)
Definition entry_at (w : world) (pair_id : Z) : ItemProgress :=
  match progress (st w) !! pair_id with
  | Some p => p
  | None => new_entry (clock w (ticks w))
  end.

(** The index of the clock reading [update_progress] takes when it records
    the answer: the next one, or the one after it when the entry has to be
    created first.  [clock w (recording_tick w pair_id)] is the recording
    time. *)
Definition recording_tick (w : world) (pair_id : Z) : nat :=
  match progress (st w) !! pair_id with
  | Some _ => ticks w
  | None => S (ticks w)
  end.

(** What recording an answer at time [now] makes of an entry. *)
Definition answered (is_correct : bool) (now : Z) (p : ItemProgress)
    : ItemProgress :=
  if is_correct then
    let p1 :=
      with_ever_correct true
        (with_correct_streak (correct_streak p + 1) p) in
    with_next_review (now + timedelta_days (new_interval p1))
      (with_interval_days (inject_Z (new_interval p1)) p1)
  else with_next_review now (with_interval_days 0 (with_correct_streak 0 p)).


(** The clock never runs backwards. *)
Definition monotone_clock (w : world) : Prop :=
  ∀ i j : nat, (i ≤ j)%nat → clock w i ≤ clock w j.


(** ["questions_answered"] of today's entry of [daily_stats], [0] when the
    day has no entry; today is the day of the next clock reading. *)
Definition answered_today (strftime_Ymd : Z → string) (w : world) : Z :=
  match daily_stats (st w) !! strftime_Ymd (clock w (ticks w)) with
  | Some stats => questions_answered stats
  | None => 0
  end.

(** An item that was answered correctly once and is not due at [now]. *)
Definition reviewed (w : world) (now : Z) (pair_id : Z) : Prop :=
  ∃ p, progress (st w) !! pair_id = Some p
       ∧ ever_correct p = true ∧ now < next_review p.

(** How often a label occurs in a sequence. *)
Definition occurrences (v : label) (sequence : list label) : nat :=
  length (filter (λ x, x = v) sequence).

(** The pair id and label a task was built for. *)
Definition task_key (t : task) : Z * label := (t.1.1.1, t.1.1.2).

(** A task succeeds when the service answers and the bytes are written; it
    fails when a request or the write raises, and [generate_audio_tts] then
    returns [False].  The speaker is the only one configured. *)
Definition task_succeeds (w : world) (t : task) : bool :=
  match tts w t.1.2 13 t.2 with
  | Synthesised _ => true
  | RequestFailed | WriteFailed _ => false
  end.

(** The files missing for a list of pair ids, in the order of the scan. *)
Definition missing_of (w : world) (ids : list Z) : list (Z * label) :=
  ids ≫= λ i,
    (if decide (is_Some (audio_files w !! (i, LA))) then [] else [(i, LA)])
    ++ (if decide (is_Some (audio_files w !! (i, LB))) then [] else [(i, LB)]).

(** What the pool reports for the tasks it ran: those that failed. *)
Definition failures (w : world) (done : list task)
    : list (Z * label * option exn) :=
  (λ t, (t.1.1.1, t.1.1.2, None))
    <$> filter (λ t, task_succeeds w t = false) done.

(** The exception [load_progress] meets on what the file holds, if any:
    [json.load] raises, or the loop over the entries does. *)
Definition snapshot_error (int_of_str fromisoformat : string → option Z)
    (c : file_content) : option exn :=
  match json_load c with
  | Raise e => Some e
  | Ok save_data =>
      match load_entries int_of_str fromisoformat
              (get_default (doc_progress save_data) []) ∅ with
      | Raise e => Some e
      | Ok _ => None
      end
  end.

(** A process that starts on the files another left: a new session. *)
Definition restart (int_of_str fromisoformat : string → option Z) : M unit :=
  init_session_state int_of_str fromisoformat.

(** The button "Add 5 More Questions" of [render_session_complete_ui], as
    far as the session counters go: five more questions, saved at once. *)
Definition add_more_questions (str_of_int isoformat : Z → string) : M unit :=
  modify (set_st (λ s,
    {| progress := progress s; session_correct := session_correct s;
       session_total := session_total s; current_streak := current_streak s;
       daily_stats := daily_stats s;
       extra_questions_added := extra_questions_added s + 5;
       last_shown_type := last_shown_type s |})) ;;;
  _ <- save_progress str_of_int isoformat ;;
  ret ().

(** ** A rendering of the library conversions, to run the model

    Integers are written in decimal; a timestamp is written as its count of
    microseconds and a day as its count of days. *)

Definition decimal_of_int (z : Z) : string :=
  NilZero.string_of_int (Z.to_int z).

Definition int_of_decimal (s : string) : option Z :=
  Z.of_int <$> NilZero.int_of_string s.

Definition decimal_day (t : Z) : string :=
  decimal_of_int (t `div` 86400000000).

(** *** Worlds and catalogues to run it on *)

Definition example_row (type : string) : row :=
  {| col_Type := type; col_Word1_Kana := "かき";
     col_Word1_Kanji := Some "柿, 牡蠣"; col_Word2_Kana := "かぎ";
     col_Word2_Kanji := Some "鍵" |}.

Definition catalogue1 : list row := [example_row "voicing"].

Definition catalogue3 : list row :=
  [example_row "voicing"; example_row "length"; example_row "pitch"].

(** A new process: nothing saved, no audio, a clock that advances by one
    microsecond per reading, a service that answers. *)
Definition new_world : world :=
  {| st := new_session_state;
     clock := λ k, Z.of_nat k; ticks := 0;
     rng := λ k, k; draws := 0;
     progress_file := None; disk_writable := true;
     audio_files := ∅;
     tts := λ _ _ _, Synthesised "RIFF";
     completion_order := λ tasks, tasks;
     ui := [] |}.

(** A pair answered correctly twice, due in two days. *)
Definition learnt_entry : ItemProgress :=
  {| correct_streak := 2; ease_factor := 2.5; interval_days := 2;
     next_review := timedelta_days 2; ever_correct := true |}.

(** A world where pair [0] has been learnt. *)
Definition practised_world : world :=
  set_st (set_progress (<[0 := learnt_entry]>)) new_world.

(** The new process again, with a clock too coarse to advance between two
    readings. *)
Definition frozen_world : world :=
  {| st := new_session_state;
     clock := λ _, 0; ticks := 0;
     rng := λ k, k; draws := 0;
     progress_file := None; disk_writable := true;
     audio_files := ∅;
     tts := λ _ _ _, Synthesised "RIFF";
     completion_order := λ tasks, tasks;
     ui := [] |}.

(** A world whose progress file holds text that is not JSON. *)
Definition corrupt_world : world :=
  set_progress_file (Some Unparsable) new_world.

(** A world where the service fails on the second word of pair [1], and
    the pool completes its tasks in the reverse order. *)
Definition failing_world : world :=
  {| st := new_session_state;
     clock := λ k, Z.of_nat k; ticks := 0;
     rng := λ k, k; draws := 0;
     progress_file := None; disk_writable := true;
     audio_files := {[ (0, LA) := "RIFF" ]};
     tts := λ _ _ pth,
       if decide (pth = (1, LB)) then RequestFailed else Synthesised "RIFF";
     completion_order := reverse;
     ui := [] |}.

(** ** The callers of the scheduler

    The daily statistics, the handlers of the buttons that record an
    answer, move on, restart the session or continue the practice, and the
    counts shown on the scoreboard.  The attributes of [st.session_state]
    that only say what is on the screen ([user_answer], [current_question],
    [current_pair_id]) and the calls of [st.rerun] are not part of the
    session modelled here and are left out of the handlers. *)

Definition set_daily_stats
    (f : gmap string DailyStat → gmap string DailyStat)
    (s : session_state) : session_state :=
  {| progress := progress s; session_correct := session_correct s;
     session_total := session_total s; current_streak := current_streak s;
     daily_stats := f (daily_stats s);
     extra_questions_added := extra_questions_added s;
     last_shown_type := last_shown_type s |}.

Definition set_session_total (v : Z) (s : session_state) : session_state :=
  {| progress := progress s; session_correct := session_correct s;
     session_total := v; current_streak := current_streak s;
     daily_stats := daily_stats s;
     extra_questions_added := extra_questions_added s;
     last_shown_type := last_shown_type s |}.

Definition set_session_correct (v : Z) (s : session_state) : session_state :=
  {| progress := progress s; session_correct := v;
     session_total := session_total s; current_streak := current_streak s;
     daily_stats := daily_stats s;
     extra_questions_added := extra_questions_added s;
     last_shown_type := last_shown_type s |}.

Definition set_current_streak (v : Z) (s : session_state) : session_state :=
  {| progress := progress s; session_correct := session_correct s;
     session_total := session_total s; current_streak := v;
     daily_stats := daily_stats s;
     extra_questions_added := extra_questions_added s;
     last_shown_type := last_shown_type s |}.

Definition set_extra_questions_added (v : Z) (s : session_state)
    : session_state :=
  {| progress := progress s; session_correct := session_correct s;
     session_total := session_total s; current_streak := current_streak s;
     daily_stats := daily_stats s;
     extra_questions_added := v;
     last_shown_type := last_shown_type s |}.

(** [st.session_state.daily_stats[today]], a [KeyError] when absent. *)
Definition daily_get (today : string) : M DailyStat :=
  w <- get ;;
  match daily_stats (st w) !! today with
  | Some stats => ret stats
  | None => raise KeyError
  end.

Section Callers.

Variable str_of_int : Z → string.
Variable int_of_str : string → option Z.
Variable isoformat : Z → string.
Variable fromisoformat : string → option Z.
Variable strftime_Ymd : Z → string.

Definition update_daily_stats (is_correct : bool) : M unit :=
  now <- datetime_now ;;
  let today := strftime_Ymd now in
  w <- get ;;
  match daily_stats (st w) !! today with
  | Some _ => ret ()
  | None =>
      started <- datetime_now ;;
      modify (set_st (set_daily_stats (<[today :=
        {| questions_answered := 0; correct_answers := 0;
           started_at := isoformat started |}]>)))
  end ;;;
  stats <- daily_get today ;;
  modify (set_st (set_daily_stats (<[today :=
    {| questions_answered := questions_answered stats + 1;
       correct_answers := correct_answers stats;
       started_at := started_at stats |}]>))) ;;;
  if is_correct then
    stats <- daily_get today ;;
    modify (set_st (set_daily_stats (<[today :=
      {| questions_answered := questions_answered stats;
         correct_answers := correct_answers stats + 1;
         started_at := started_at stats |}]>)))
  else ret ().

Definition get_current_target : M Z :=
  w <- get ;;
  ret (DAILY_TARGET + extra_questions_added (st w)).



(** The button [Restart Session] of [main]. *)
Definition restart_session : M unit :=
  modify (set_st (set_progress (λ _, ∅))) ;;;
  modify (set_st (set_session_correct 0)) ;;;
  modify (set_st (set_session_total 0)) ;;;
  modify (set_st (set_current_streak 0)) ;;;
  modify (set_st (set_extra_questions_added 0)) ;;;
  _ <- save_progress str_of_int isoformat ;;
  ret ().

(** The button [Continue Practice] of [render_session_complete_ui]. *)
Definition continue_practice (df : list row) : M unit :=
  for_each (range (Nat.min 5 (length df))) (λ i,
    w <- get ;;
    match progress (st w) !! i with
    | Some _ =>
        now <- datetime_now ;;
        progress_set i (with_next_review now)
    | None => ret ()
    end).

End Callers.

(** *** Statistics *)

(** [sum(1 for i in range(len(df))
         if progress.get(i, {}).get("correct_streak", 0) >= 3)],
    the count [render_top_bar] and [render_scoreboard] show. *)
Definition total_mastered (df : list row) : M nat :=
  w <- get ;;
  ret (length (filter (λ i,
         3 ≤ match progress (st w) !! i with
             | Some p => correct_streak p
             | None => 0
             end)
       (range (length df)))).

(** [df["Type"].unique()]: the types in the order of their first row. *)
Fixpoint unique_from (seen : list string) (types : list string)
    : list string :=
  match types with
  | [] => []
  | t :: types' =>
      if decide (t ∈ seen) then unique_from seen types'
      else t :: unique_from (t :: seen) types'
  end.

Definition unique (types : list string) : list string := unique_from [] types.

(** [df[df["Type"] == type_name].index.tolist()], the index of [df] being
    the positions of its rows. *)
Definition type_pairs (df : list row) (type_name : string) : list Z :=
  fst <$> filter (λ ir, col_Type ir.2 = type_name)
            (zip (range (length df)) df).

(** The inner loop of [get_statistics]. *)
Fixpoint count_pairs (ids : list Z) (mastered learning : Z) : M (Z * Z) :=
  match ids with
  | [] => ret (mastered, learning)
  | pair_id :: ids' =>
      init_pair_progress pair_id ;;;
      p <- progress_get pair_id ;;
      if 3 <=? correct_streak p then count_pairs ids' (mastered + 1) learning
      else if ever_correct p then count_pairs ids' mastered (learning + 1)
      else count_pairs ids' mastered learning
  end.

(** A row of the table of [get_statistics], without its column
    ["Progress"]. *)
Record type_stats := {
  stats_Type : string;
  stats_Mastered : Z;
  stats_Learning : Z;
  stats_Total : Z
}.

(** The outer loop of [get_statistics]. *)
Fixpoint count_types (df : list row) (types : list string)
    (stats : list type_stats) : M (list type_stats) :=
  match types with
  | [] => ret stats
  | type_name :: types' =>
      let type_pairs := type_pairs df type_name in
      counts <- count_pairs type_pairs 0 0 ;;
      let total := Z.of_nat (length type_pairs) in
      count_types df types'
        (stats ++ [{| stats_Type := type_name;
                      stats_Mastered := counts.1;
                      stats_Learning := counts.2;
                      stats_Total := total |}])
  end.

(** The rows [get_statistics] builds, in the order of its loop.  The
    column ["Progress"], a floating-point percentage, and the sort of the
    table on that column are left out. *)
Definition get_statistics_rows (df : list row) : M (list type_stats) :=
  count_types df (unique (col_Type <$> df)) [].

(** ** Further notions used in the statements *)

(** What the scan of [select_next_pair] records for a pair that has an
    entry: the pair, its next review and its type when it is due at
    [now]. *)
Definition due_entry (df : list row) (w : world) (now : Z) (pair_id : Z)
    : option (Z * Z * string) :=
  match progress (st w) !! pair_id, df !! Z.to_nat pair_id with
  | Some p, Some r =>
      if next_review p <=? now
      then Some (pair_id, next_review p, col_Type r) else None
  | _, _ => None
  end.

Definition due_list (df : list row) (w : world) (now : Z) (ids : list Z)
    : list (Z * Z * string) :=
  omap (due_entry df w now) ids.

(** The due pairs within five minutes of the earliest one. *)
Definition urgent_of (due_pairs : list (Z * Z * string))
    : list (Z * Z * string) :=
  match sort_by_time due_pairs with
  | first :: _ =>
      filter (λ p, p.1.2 ≤ first.1.2 + timedelta_minutes 5)
        (sort_by_time due_pairs)
  | [] => []
  end.

(** Every pair of the catalogue has an entry. *)
Definition all_initialised (df : list row) (w : world) : Prop :=
  ∀ pair_id, pair_id ∈ range (length df) →
    is_Some (progress (st w) !! pair_id).

(** The document [save_progress] writes for a session when the clock reads
    [now]. *)
Definition snapshot_of (str_of_int isoformat : Z → string)
    (s : session_state) (now : Z) : snapshot_doc :=
  {| doc_progress :=
       Some ((λ kv, (str_of_int kv.1, serializable_entry isoformat kv.2))
               <$> map_to_list (progress s));
     doc_session_correct := Some (session_correct s);
     doc_session_total := Some (session_total s);
     doc_current_streak := Some (current_streak s);
     doc_daily_stats := Some (daily_stats s);
     doc_last_saved := Some (isoformat now) |}.

(** Every day of the statistics has counted no more correct answers than
    answers. *)
Definition daily_stats_ok (m : gmap string DailyStat) : Prop :=
  ∀ day stats, m !! day = Some stats →
    0 <= correct_answers stats <= questions_answered stats.


(** Every entry is due from the next clock reading on. *)
Definition all_due (w : world) : Prop :=
  ∀ pair_id p, progress (st w) !! pair_id = Some p →
    ∀ k, (ticks w ≤ k)%nat → next_review p <= clock w k.

(** Today's entry of the daily statistics before an answer is counted:
    the stored one, or the one [update_daily_stats] creates, stamped with
    the reading after the one that gave the day. *)
Definition today_before (isoformat strftime_Ymd : Z → string) (w : world)
    : DailyStat :=
  match daily_stats (st w) !! strftime_Ymd (clock w (ticks w)) with
  | Some stats => stats
  | None =>
      {| questions_answered := 0; correct_answers := 0;
         started_at := isoformat (clock w (S (ticks w))) |}
  end.

(** The entry once the answer is counted. *)
Definition counted (is_correct : bool) (stats : DailyStat) : DailyStat :=
  {| questions_answered := questions_answered stats + 1;
     correct_answers :=
       correct_answers stats + (if is_correct then 1 else 0);
     started_at := started_at stats |}.


(** The streak and the flag the statistics read for a pair, with the
    values of a pair that has no entry. *)
Definition streak_at (w : world) (pair_id : Z) : Z :=
  match progress (st w) !! pair_id with
  | Some p => correct_streak p
  | None => 0
  end.

Definition ever_correct_at (w : world) (pair_id : Z) : bool :=
  match progress (st w) !! pair_id with
  | Some p => ever_correct p
  | None => false
  end.

(** The pairs of [ids] that count as mastered, and those that count as
    learning. *)
Definition mastered_of (w : world) (ids : list Z) : list Z :=
  filter (λ i, 3 ≤ streak_at w i) ids.

Definition learning_of (w : world) (ids : list Z) : list Z :=
  filter (λ i, streak_at w i < 3 ∧ ever_correct_at w i = true) ids.

(** The row of a type, counted on the entries of [w]. *)
Definition row_of (df : list row) (w : world) (type_name : string)
    : type_stats :=
  {| stats_Type := type_name;
     stats_Mastered := Z.of_nat (length (mastered_of w (type_pairs df type_name)));
     stats_Learning := Z.of_nat (length (learning_of w (type_pairs df type_name)));
     stats_Total := Z.of_nat (length (type_pairs df type_name)) |}.

(** The sum of the column ["Mastered"]. *)
Definition mastered_sum (rows : list type_stats) : Z :=
  foldr (λ r acc, stats_Mastered r + acc) 0 rows.

(** [w'] is [w] after some clock readings, with entries created for the
    pairs of [ids] that had none, each stamped with one of the readings;
    nothing else differs. *)
Definition entries_added (ids : list Z) (w w' : world) : Prop :=
  w' = set_st (set_progress (λ _, progress (st w')))
         (set_ticks (ticks w') w)
  ∧ (ticks w ≤ ticks w')%nat
  ∧ (∀ i p, progress (st w) !! i = Some p → progress (st w') !! i = Some p)
  ∧ (∀ i, progress (st w) !! i = None → i ∈ ids →
       ∃ k, (ticks w ≤ k < ticks w')%nat
            ∧ progress (st w') !! i = Some (new_entry (clock w k)))
  ∧ (∀ i, progress (st w) !! i = None → i ∉ ids →
       progress (st w') !! i = None).

(** The text [generate_all_audio] sends for a pair and a label. *)
Definition task_text (df : list row) (pair_id : Z) (word_type : label)
    : string :=
  match df !! Z.to_nat pair_id with
  | Some r =>
      extract_first_word
        match word_type with
        | LA => col_Word1_Kanji r
        | LB => col_Word2_Kanji r
        end
  | None => EmptyString
  end.

(** The task built for a missing file. *)
Definition task_for (df : list row) (key : Z * label) : task :=
  (key.1, key.2, task_text df key.1 key.2, key).

(** What is at the destination after a call of the service, given what was
    there before: the bytes written, whole or in part, or what was there
    when the request failed. *)
Definition written (outcome : tts_outcome) (before : option string)
    : option string :=
  match outcome with
  | Synthesised wav => Some wav
  | WriteFailed partial => Some partial
  | RequestFailed => before
  end.


(** *** More worlds to run the model on *)

(** Three pairs, each with an entry that is due from the first reading of
    the clock on, after a question on a pair of type ["voicing"]. *)
Definition due_world : world :=
  set_st (λ s, set_last_shown_type "voicing"
    (set_progress (λ _,
       <[0 := new_entry 0]> (<[1 := new_entry 0]> (<[2 := new_entry 0]> ∅)))
       s)) new_world.


(** A world that has both files of the pair of [catalogue1]. *)
Definition stocked_world : world :=
  set_audio_files (λ _, <[(0, LA) := "RIFF"]> (<[(0, LB) := "RIFF"]> ∅))
    new_world.


(** * Properties *)

(** ** Running the monad *)

Ltac run :=
  cbv beta iota zeta delta
    [bind get ret raise modify try_except datetime_now st_message lift
     progress_get progress_set write_progress_file];
  cbn [st clock ticks rng draws progress_file disk_writable audio_files tts
       completion_order ui set_st set_ticks set_draws set_progress_file
       set_audio_files add_ui progress session_correct session_total
       current_streak daily_stats extra_questions_added last_shown_type
       set_progress set_last_shown_type].

Lemma alter_Some {V} (f : V → V) (m : gmap Z V) i x :
  m !! i = Some x → alter f i m = <[i := f x]> m.
Proof.
  intros H. apply map_eq. intros j. rewrite lookup_alter, lookup_insert.
  case_decide; subst; by rewrite ?H.
Qed.

(** ** Arithmetic of the interval *)


Lemma new_interval_ge_1 p : 1 <= new_interval p.
Proof. unfold new_interval. destruct (_ =? _); lia. Qed.

(** ** Recording an answer *)

Section Recording.

Variable str_of_int : Z → string.
Variable isoformat : Z → string.

Lemma save_progress_run w :
  ∃ w', save_progress str_of_int isoformat w = (Ok (disk_writable w), w')
    ∧ st w' = st w ∧ clock w' = clock w ∧ ticks w' = S (ticks w)
    ∧ rng w' = rng w ∧ draws w' = draws w
    ∧ disk_writable w' = disk_writable w.
Proof.
  unfold save_progress. run.
  destruct (disk_writable w) eqn:E; eexists; (split; [reflexivity|]);
    by repeat split.
Qed.

(** [update_progress] never raises; it replaces the entry of [pair_id] by
    the [answered] one and leaves the rest of the session alone. *)
Lemma update_progress_run pair_id is_correct w :
  ∃ w', update_progress str_of_int isoformat pair_id is_correct w = (Ok (), w')
    ∧ progress (st w') =
        <[pair_id := answered is_correct (clock w (recording_tick w pair_id))
                       (entry_at w pair_id)]> (progress (st w))
    ∧ session_correct (st w') = session_correct (st w)
    ∧ session_total (st w') = session_total (st w)
    ∧ current_streak (st w') = current_streak (st w)
    ∧ daily_stats (st w') = daily_stats (st w)
    ∧ extra_questions_added (st w') = extra_questions_added (st w)
    ∧ last_shown_type (st w') = last_shown_type (st w)
    ∧ clock w' = clock w
    ∧ ticks w' = S (S (recording_tick w pair_id)).
Proof.
  unfold update_progress, init_pair_progress, entry_at, recording_tick. run.
  destruct (progress (st w) !! pair_id) as [p|] eqn:Hp; run.
  - rewrite Hp. destruct is_correct; run.
    + rewrite Hp; run. rewrite !lookup_alter_eq, Hp.
      cbn [fmap option_fmap option_map]. run.
      set (p1 := with_ever_correct true _).
      pose proof (new_interval_ge_1 p1) as Hge.
      destruct (new_interval p1 <? 1) eqn:Hlt; [apply Z.ltb_lt in Hlt; lia|].
      run.
      match goal with |- context [save_progress _ _ ?w0] =>
        destruct (save_progress_run w0) as (w' & -> & Hst & Hc & Ht & _) end.
      exists w'. rewrite Hst, Hc, Ht. run. split; [done|].
      split; [|done].
      by rewrite (alter_Some _ _ _ _ Hp), !alter_insert_eq.
    + match goal with |- context [save_progress _ _ ?w0] =>
        destruct (save_progress_run w0) as (w' & -> & Hst & Hc & Ht & _) end.
      exists w'. rewrite Hst, Hc, Ht. run. split; [done|].
      split; [|done].
      by rewrite (alter_Some _ _ _ _ Hp), !alter_insert_eq.
  - rewrite lookup_insert_eq. run.
    destruct is_correct; run.
    + rewrite ?lookup_insert_eq; run.
      rewrite !lookup_alter_eq, lookup_insert_eq.
      cbn [fmap option_fmap option_map]. run.
      set (p1 := with_ever_correct true _).
      pose proof (new_interval_ge_1 p1) as Hge.
      destruct (new_interval p1 <? 1) eqn:Hlt; [apply Z.ltb_lt in Hlt; lia|].
      run.
      match goal with |- context [save_progress _ _ ?w0] =>
        destruct (save_progress_run w0) as (w' & -> & Hst & Hc & Ht & _) end.
      exists w'. rewrite Hst, Hc, Ht. run. split; [done|].
      split; [|done].
      by rewrite !alter_insert_eq.
    + match goal with |- context [save_progress _ _ ?w0] =>
        destruct (save_progress_run w0) as (w' & -> & Hst & Hc & Ht & _) end.
      exists w'. rewrite Hst, Hc, Ht. run. split; [done|].
      split; [|done].
      by rewrite !alter_insert_eq.
Qed.


(** C3: an incorrect answer, whatever the entry held, sets the streak and
    the interval to [0] and the next review to the recording time, a
    reading taken during the call; the item is due at every later reading
    of a clock that does not run backwards. *)
Theorem update_progress_incorrect pair_id w :
  ∃ w' p',
    update_progress str_of_int isoformat pair_id false w = (Ok (), w')
    ∧ progress (st w') !! pair_id = Some p'
    ∧ correct_streak p' = 0
    ∧ interval_days p' = 0%Q
    ∧ next_review p' <= clock w (recording_tick w pair_id)
    ∧ (ticks w ≤ recording_tick w pair_id < ticks w')%nat
    ∧ (monotone_clock w →
         ∀ k, (ticks w' ≤ k)%nat → next_review p' <= clock w' k).
Proof.
  destruct (update_progress_run pair_id false w)
    as (w' & Hrun & Hp & _ & _ & _ & _ & _ & _ & Hc & Ht).
  exists w', (answered false (clock w (recording_tick w pair_id))
                (entry_at w pair_id)).
  split; [done|]. split; [by rewrite Hp, lookup_insert_eq|].
  cbn. repeat split; try done.
  - unfold recording_tick. destruct (_ !! _); lia.
  - lia.
  - intros Hmono k Hk. rewrite Hc. apply Hmono. lia.
Qed.




End Recording.

(** ** Selecting the next pair *)

Lemma init_pair_progress_absent pair_id w :
  progress (st w) !! pair_id = None →
  init_pair_progress pair_id w =
    (Ok (), set_st (set_progress (<[pair_id := new_entry (clock w (ticks w))]>))
              (set_ticks (S (ticks w)) w)).
Proof. intros H. unfold init_pair_progress. run. by rewrite H. Qed.

Lemma init_pair_progress_present pair_id w p :
  progress (st w) !! pair_id = Some p →
  init_pair_progress pair_id w = (Ok (), w).
Proof. intros H. unfold init_pair_progress. run. by rewrite H. Qed.



(** ** Completion of the session *)

Section Completion.

Variable strftime_Ymd : Z → string.

Lemma daily_target_reached_run w :
  daily_target_reached strftime_Ymd w =
    (Ok (DAILY_TARGET + extra_questions_added (st w)
           <=? answered_today strftime_Ymd w),
     set_ticks (S (ticks w)) w).
Proof.
  unfold daily_target_reached, get_today_stats, answered_today. run.
  by destruct (daily_stats (st w) !! _).
Qed.

(** The loop answers whether every pair of [ids] is reviewed. *)
Lemma all_reviewed_run now ids : ∀ w,
  ∃ b w', all_reviewed now ids w = (Ok b, w')
          ∧ (b = true ↔ ∀ pair_id, pair_id ∈ ids → reviewed w now pair_id).
Proof.
  induction ids as [|pair_id ids IH]; intros w.
  - exists true, w. split; [done|]. split; [|done].
    intros _ id Hid. by apply elem_of_nil in Hid.
  - cbn [all_reviewed]. unfold bind at 1.
    destruct (progress (st w) !! pair_id) as [p|] eqn:Hp.
    + rewrite (init_pair_progress_present _ _ _ Hp).
      unfold bind at 1, progress_get. run. rewrite Hp. run.
      destruct (negb (ever_correct p) || (next_review p <=? now)) eqn:Hbad.
      * exists false, w. split; [done|]. split; [done|].
        intros Hall. destruct (Hall pair_id) as (p' & Hp' & Hec & Hnr);
          [by left|].
        rewrite Hp in Hp'. injection Hp' as <-.
        rewrite Hec in Hbad. cbn in Hbad. lia.
      * destruct (IH w) as (b & w' & Hrun & Hiff).
        exists b, w'. split; [done|]. rewrite Hiff. split.
        -- intros Hall id [->|Hid]%elem_of_cons; [|by apply Hall].
           exists p. apply orb_false_iff in Hbad as [Hec Hnr].
           apply negb_false_iff in Hec. split; [done|]. split; [done|lia].
        -- intros Hall id Hid. apply Hall. by right.
    + rewrite (init_pair_progress_absent _ _ Hp).
      unfold bind at 1, progress_get. run. rewrite lookup_insert_eq. run.
      cbn [ever_correct new_entry negb orb].
      eexists false, _. split; [done|]. split; [done|].
      intros Hall. destruct (Hall pair_id) as (p' & Hp' & _); [by left|].
      by rewrite Hp in Hp'.
Qed.

Lemma session_complete_run df w :
  ∃ b w', session_complete strftime_Ymd df w = (Ok b, w')
    ∧ (b = true ↔
         DAILY_TARGET + extra_questions_added (st w)
           <= answered_today strftime_Ymd w
         ∨ ∀ pair_id, pair_id ∈ range (length df) →
             reviewed w (clock w (S (ticks w))) pair_id).
Proof.
  unfold session_complete. unfold bind at 1.
  rewrite daily_target_reached_run.
  destruct (_ <=? _) eqn:Hreached.
  - exists true, (set_ticks (S (ticks w)) w). split; [done|].
    split; [|done]. intros _. left. lia.
  - unfold bind at 1, datetime_now. cbn [clock ticks set_ticks].
    destruct (all_reviewed_run (clock w (S (ticks w))) (range (length df))
                (set_ticks (S (S (ticks w))) (set_ticks (S (ticks w)) w)))
      as (b & w' & Hrun & Hiff).
    exists b, w'. split; [done|]. rewrite Hiff. split.
    + intros Hall. right. intros id Hid. exact (Hall id Hid).
    + intros [Hge|Hall]; [lia|]. intros id Hid. exact (Hall id Hid).
Qed.

(** C5, as the code has it: [session_complete] always answers; it answers
    true when today's count has reached [DAILY_TARGET] plus the extra
    questions, whatever the items hold; below the target it answers true
    exactly when every pair of the catalogue was answered correctly once
    and has its next review strictly after the time read; so it answers
    true when every pair is in that state, also with no answer today; and
    on a catalogue that is not empty, with no history, it answers false. *)
Theorem session_complete_spec df w :
  ∃ b w', session_complete strftime_Ymd df w = (Ok b, w')
    ∧ (DAILY_TARGET + extra_questions_added (st w)
         <= answered_today strftime_Ymd w → b = true)
    ∧ (answered_today strftime_Ymd w
         < DAILY_TARGET + extra_questions_added (st w) →
       (b = true ↔
          ∀ pair_id, pair_id ∈ range (length df) →
            reviewed w (clock w (S (ticks w))) pair_id))
    ∧ ((∀ pair_id, pair_id ∈ range (length df) →
          reviewed w (clock w (S (ticks w))) pair_id) → b = true)
    ∧ (df ≠ [] → st w = new_session_state → b = false).
Proof.
  destruct (session_complete_run df w) as (b & w' & Hrun & Hiff).
  exists b, w'. split; [done|]. split; [|split; [|split]].
  - intros H. apply Hiff. by left.
  - intros Hlt. split.
    + intros Hb. apply Hiff in Hb as [Hge|Hall]; [lia|done].
    + intros Hall. apply Hiff. by right.
  - intros Hall. apply Hiff. by right.
  - intros Hne Hst. destruct b; [|done]. exfalso.
    destruct Hiff as [Hiff _]. destruct (Hiff eq_refl) as [Hge|Hall].
    + unfold answered_today in Hge. rewrite Hst in Hge. cbn in Hge.
      rewrite lookup_empty in Hge. unfold DAILY_TARGET in Hge. lia.
    + destruct (Hall 0) as (p & Hp & _).
      * unfold range. apply elem_of_seqZ. destruct df; [done|]. cbn. lia.
      * rewrite Hst in Hp. cbn in Hp. by rewrite lookup_empty in Hp.
Qed.

End Completion.

(** ** The progress store *)

Lemma int_of_decimal_of_int z : int_of_decimal (decimal_of_int z) = Some z.
Proof.
  unfold int_of_decimal, decimal_of_int.
  rewrite NilZero.isi.
  - cbn. by rewrite DecimalZ.of_to.
  - destruct z as [|q|q]; cbn; [done| |done].
    intros [= H]. by apply (DecimalPos.Unsigned.to_uint_nonnil q).
  - destruct z as [|q|q]; cbn; [done|done|].
    intros [= H]. by apply (DecimalPos.Unsigned.to_uint_nonnil q).
Qed.

Section Store.

Variable str_of_int : Z → string.
Variable int_of_str : string → option Z.
Variable isoformat : Z → string.
Variable fromisoformat : string → option Z.

(** The documented contract of the conversions: reading back what was
    written gives the value. *)
Hypothesis int_of_str_of_int : ∀ z, int_of_str (str_of_int z) = Some z.
Hypothesis fromisoformat_isoformat :
  ∀ t, fromisoformat (isoformat t) = Some t.

Lemma loaded_entry_serializable p :
  loaded_entry fromisoformat (serializable_entry isoformat p) = Ok p.
Proof.
  unfold loaded_entry, serializable_entry. cbn.
  rewrite fromisoformat_isoformat. cbn. by destruct p.
Qed.

Lemma load_entries_serializable (l : list (Z * ItemProgress)) : ∀ loaded,
  load_entries int_of_str fromisoformat
    ((λ kv, (str_of_int kv.1, serializable_entry isoformat kv.2)) <$> l)
    loaded
  = Ok (foldl (λ m kv, <[kv.1 := kv.2]> m) loaded l).
Proof.
  induction l as [|[k p] l IH]; intros loaded; [done|].
  cbn [fmap list_fmap load_entries fst snd foldl].
  rewrite loaded_entry_serializable, int_of_str_of_int. cbn [parse].
  apply IH.
Qed.

Lemma foldl_insert_list_to_map {V} (l : list (Z * V)) : ∀ acc : gmap Z V,
  NoDup l.*1 →
  foldl (λ m kv, <[kv.1 := kv.2]> m) acc l = list_to_map l ∪ acc.
Proof.
  induction l as [|[k v] l IH]; intros acc Hnd.
  - cbn. by rewrite (left_id_L ∅ (∪)).
  - cbn in Hnd. apply NoDup_cons in Hnd as [Hk Hnd].
    cbn [foldl list_to_map foldr fst snd]. rewrite IH by done.
    rewrite <- insert_union_r; [apply insert_union_l|].
    by apply not_elem_of_list_to_map_1.
Qed.

Lemma load_entries_map (m : gmap Z ItemProgress) :
  load_entries int_of_str fromisoformat
    ((λ kv, (str_of_int kv.1, serializable_entry isoformat kv.2))
       <$> map_to_list m) ∅
  = Ok m.
Proof.
  rewrite load_entries_serializable, foldl_insert_list_to_map.
  - by rewrite list_to_map_to_list, (right_id_L ∅ (∪)).
  - apply NoDup_fst_map_to_list.
Qed.

(** C6, as the code has it: a snapshot written by [save_progress] and read
    by [load_progress], in the same process or in another, gives back the
    progress map (every field, the next review to the microsecond), the
    three session counters the snapshot holds and the daily statistics;
    [extra_questions_added] is not in the snapshot and keeps the value it
    has in the session that loads. *)
Theorem save_load_round_trip w w1 s0 :
  save_progress str_of_int isoformat w = (Ok true, w1) →
  ∃ w2,
    load_progress int_of_str fromisoformat (set_st (λ _, s0) w1)
      = (Ok true, w2)
    ∧ progress (st w2) = progress (st w)
    ∧ session_correct (st w2) = session_correct (st w)
    ∧ session_total (st w2) = session_total (st w)
    ∧ current_streak (st w2) = current_streak (st w)
    ∧ daily_stats (st w2) = daily_stats (st w)
    ∧ extra_questions_added (st w2) = extra_questions_added s0
    ∧ last_shown_type (st w2) = last_shown_type s0.
Proof.
  unfold save_progress. run.
  destruct (disk_writable w) eqn:Hdisk; [|done].
  intros [= <-]. unfold load_progress. run. cbn [json_load doc_progress
    get_default doc_session_correct doc_session_total doc_current_streak
    doc_daily_stats].
  rewrite load_entries_map. eexists. split; [done|]. by repeat split.
Qed.

(** [save_progress] writes the file whenever it can be opened. *)
Lemma save_progress_writable w :
  disk_writable w = true →
  ∃ w1, save_progress str_of_int isoformat w = (Ok true, w1).
Proof.
  intros H. destruct (save_progress_run str_of_int isoformat w)
    as (w1 & Hrun & _).
  exists w1. by rewrite Hrun, H.
Qed.


End Store.

(** ** Question generation *)

Lemma swap_Permutation {T} (x : list T) i j : swap x i j ≡ₚ x.
Proof.
  unfold swap. destruct (x !! j) as [xj|] eqn:Hj; [|done].
  destruct (x !! i) as [xi|] eqn:Hi; [|done].
  by apply Permutation_insert_swap.
Qed.

(** [random.shuffle] returns a permutation, whatever is drawn. *)
Lemma shuffle_down_run {T} i : ∀ (x : list T) w,
  ∃ x' w', shuffle_down i x w = (Ok x', w') ∧ x' ≡ₚ x.
Proof.
  induction i as [|i IH]; intros x w.
  - by exists x, w.
  - cbn [shuffle_down]. unfold bind, randbelow.
    destruct (IH (swap x (S i) (rng w (draws w) `mod` S (S i))%nat)
                (set_draws (S (draws w)) w)) as (x' & w' & -> & Hperm).
    exists x', w'. split; [done|]. by rewrite Hperm, swap_Permutation.
Qed.

(** [sequence.index(v)] finds the first position of [v]. *)
Lemma index_from_run v sequence : ∀ i w,
  v ∈ sequence →
  ∃ k : nat, index_from v sequence i w = (Ok (i + Z.of_nat k), w)
    ∧ sequence !! k = Some v
    ∧ ∀ j : nat, (j < k)%nat → sequence !! j ≠ Some v.
Proof.
  induction sequence as [|x rest IH]; intros i w Hin.
  - by apply elem_of_nil in Hin.
  - cbn [index_from]. destruct (decide (x = v)) as [->|Hne].
    + exists 0%nat. split; [unfold ret; do 2 f_equal; lia|].
      split; [done|]. intros j Hj. lia.
    + apply elem_of_cons in Hin as [->|Hin]; [done|].
      destruct (IH (i + 1) w Hin) as (k & Hrun & Hk & Hfirst).
      exists (S k). split; [rewrite Hrun; do 2 f_equal; lia|].
      split; [done|]. intros [|j] Hj; cbn; [congruence|].
      apply Hfirst. lia.
Qed.

(** A shuffled [[majority; majority; majority; odd]]. *)
Lemma shuffled_sequence majority odd sequence :
  majority ≠ odd →
  sequence ≡ₚ [majority; majority; majority; odd] →
  length sequence = 4%nat
  ∧ occurrences majority sequence = 3%nat
  ∧ occurrences odd sequence = 1%nat
  ∧ ∀ i j, sequence !! i = Some odd → sequence !! j = Some odd → i = j.
Proof.
  intros Hne Hperm.
  pose proof (Permutation_length Hperm) as Hlen.
  assert (occurrences majority sequence = 3%nat) as Hmaj.
  { unfold occurrences. rewrite Hperm.
    by destruct majority, odd. }
  assert (occurrences odd sequence = 1%nat) as Hodd.
  { unfold occurrences. rewrite Hperm.
    by destruct majority, odd. }
  repeat split; try done.
  destruct sequence as [|a [|b [|c [|d [|]]]]]; try done.
  intros i j Hi Hj. unfold occurrences in Hmaj, Hodd.
  pose proof (lookup_lt_Some _ _ _ Hi) as Hilt.
  pose proof (lookup_lt_Some _ _ _ Hj) as Hjlt.
  cbn [length] in Hilt, Hjlt.
  destruct a, b, c, d, majority, odd; vm_compute in Hmaj, Hodd;
    try congruence;
    destruct i as [|[|[|[|]]]], j as [|[|[|[|]]]]; cbn in Hi, Hj;
    congruence || lia.
Qed.

Lemma create_question_run pair_id df w r w1 :
  iloc df pair_id w = (Ok r, w1) →
  ∃ q w' (k : nat),
    create_question pair_id df w = (Ok q, w')
    ∧ q_majority q ≠ q_odd q
    ∧ q_sequence q ≡ₚ [q_majority q; q_majority q; q_majority q; q_odd q]
    ∧ q_correct_position q = Z.of_nat k + 1
    ∧ q_sequence q !! k = Some (q_odd q).
Proof.
  intros Hrow. unfold create_question. unfold bind at 1. rewrite Hrow.
  unfold bind at 1, random_lt_half.
  set (heads := Nat.even _). set (w2 := set_draws _ w1).
  set (majority := if heads then LA else LB).
  set (odd := if heads then LB else LA).
  unfold bind at 1, random_shuffle.
  destruct (shuffle_down_run (length [majority; majority; majority; odd] - 1)
              [majority; majority; majority; odd] w2)
    as (sequence & w3 & -> & Hperm).
  assert (odd ∈ sequence) as Hin.
  { rewrite Hperm. set_solver. }
  unfold bind at 1, list_index.
  destruct (index_from_run odd sequence 0 w3 Hin) as (k & -> & Hk & _).
  eexists _, w3, k. split; [reflexivity|]. cbn.
  split; [by destruct heads|]. split; [done|]. split; [lia|done].
Qed.

(** C4: [create_question] produces a question for every pair of the
    catalogue, and every question it produces has a sequence of length 4
    holding the majority label three times and the odd label once, the two
    labels being ['A'] and ['B'] in some order; [correct_position], counted
    from 1, is where the odd label stands after the shuffle, and it stands
    nowhere else. *)
Theorem create_question_sequence pair_id df w :
  (∀ r w1, iloc df pair_id w = (Ok r, w1) →
     ∃ q w', create_question pair_id df w = (Ok q, w'))
  ∧ ∀ q w', create_question pair_id df w = (Ok q, w') →
      length (q_sequence q) = 4%nat
      ∧ occurrences (q_majority q) (q_sequence q) = 3%nat
      ∧ occurrences (q_odd q) (q_sequence q) = 1%nat
      ∧ q_majority q ≠ q_odd q
      ∧ 1 <= q_correct_position q <= 4
      ∧ q_sequence q !! Z.to_nat (q_correct_position q - 1) = Some (q_odd q)
      ∧ ∀ i : nat, q_sequence q !! i = Some (q_odd q) →
          Z.of_nat i + 1 = q_correct_position q.
Proof.
  split.
  - intros r w1 Hrow.
    destruct (create_question_run _ _ _ _ _ Hrow) as (q & w' & _ & Hrun & _).
    by exists q, w'.
  - intros q w' Hq.
    destruct (iloc df pair_id w) as [[r|e] w1] eqn:Hrow.
    + destruct (create_question_run _ _ _ _ _ Hrow)
        as (q' & w'' & k & Hrun & Hne & Hperm & Hpos & Hk).
      rewrite Hrun in Hq. injection Hq as -> ->.
      destruct (shuffled_sequence _ _ _ Hne Hperm)
        as (Hlen & Hmaj & Hodd & Huniq).
      pose proof (lookup_lt_Some _ _ _ Hk) as Hklt.
      repeat split; try done; try lia.
      * rewrite Hpos. by replace (Z.to_nat (Z.of_nat k + 1 - 1)) with k by lia.
      * intros i Hi. rewrite Hpos. by rewrite (Huniq i k Hi Hk).
    + unfold create_question in Hq. unfold bind at 1 in Hq.
      by rewrite Hrow in Hq.
Qed.

(** ** The audio pipeline *)

Lemma generate_single_audio_run t w :
  ∃ w', generate_single_audio t w
          = (Ok (task_succeeds w t, t.1.1.1, t.1.1.2, None), w')
    ∧ tts w' = tts w
    ∧ ∀ pth, pth ≠ t.2 → audio_files w' !! pth = audio_files w !! pth.
Proof.
  destruct t as [[[pair_id word_type] text] output_path].
  unfold generate_single_audio, generate_audio_tts, random_choice, randbelow,
    SPEAKER_IDS, task_succeeds. run.
  cbn [length fst snd]. rewrite Nat.mod_1_r. cbn [lookup list_lookup].
  run.
  destruct (tts w text 13 output_path) as [wav| |partial] eqn:Htts; run;
    (eexists; split; [done|split; [done|]]); try done;
    intros pth Hne; cbn; by rewrite lookup_insert_ne.
Qed.

(** The pool reports the tasks that fail, in the order of completion, and
    touches no file but the destinations of its tasks. *)
Lemma run_completed_run done : ∀ failed w,
  ∃ w', run_completed done failed w = (Ok (failed ++ failures w done), w')
    ∧ tts w' = tts w
    ∧ ∀ pth, pth ∉ ((λ t : task, t.2) <$> done) →
        audio_files w' !! pth = audio_files w !! pth.
Proof.
  induction done as [|t done IH]; intros failed w.
  - exists w. unfold failures. cbn. by rewrite app_nil_r.
  - cbn [run_completed]. unfold bind at 1.
    destruct (generate_single_audio_run t w) as (w1 & -> & Htts & Hfiles).
    destruct (IH (if task_succeeds w t then failed
                  else failed ++ [(t.1.1.1, t.1.1.2, None)]) w1)
      as (w' & -> & Htts' & Hfiles').
    exists w'. split; [|split].
    + do 2 f_equal. unfold failures. rewrite filter_cons.
      assert (∀ l, filter (λ t0 : task, task_succeeds w1 t0 = false) l
                   = filter (λ t0 : task, task_succeeds w t0 = false) l) as ->.
      { intros l. apply list_filter_iff. intros x. unfold task_succeeds.
        by rewrite Htts. }
      destruct (task_succeeds w t) eqn:Hok.
      * by rewrite decide_False by done.
      * rewrite decide_True by done. cbn. by rewrite <- app_assoc.
    + congruence.
    + intros pth Hnotin. rewrite fmap_cons in Hnotin.
      apply not_elem_of_cons in Hnotin as [Hne Hnotin].
      rewrite Hfiles' by done. by apply Hfiles.
Qed.

Lemma scan_missing_run ids : ∀ missing_files w,
  scan_missing ids missing_files w
    = (Ok (missing_files ++ missing_of w ids), w).
Proof.
  induction ids as [|i ids IH]; intros missing_files w.
  - unfold missing_of. cbn. by rewrite app_nil_r.
  - cbn [scan_missing]. run. rewrite IH. do 2 f_equal.
    unfold missing_of. cbn [mbind list_bind].
    destruct (decide (is_Some (audio_files w !! (i, LA))));
      destruct (decide (is_Some (audio_files w !! (i, LB))));
      cbn; by rewrite <- ?app_assoc.
Qed.

Lemma missing_of_key w (i j : Z) (l : label) :
  (j, l) ∈
    (if decide (is_Some (audio_files w !! (i, LA))) then [] else [(i, LA)])
    ++ (if decide (is_Some (audio_files w !! (i, LB))) then []
        else [(i, LB)]) →
  j = i ∧ audio_files w !! (j, l) = None.
Proof.
  intros Hin. apply elem_of_app in Hin as [Hin|Hin]; case_decide as Hsome;
    try (by apply elem_of_nil in Hin);
    apply list_elem_of_singleton in Hin; injection Hin as -> ->;
    (split; [done|]); by apply eq_None_not_Some.
Qed.

Lemma elem_of_missing_of w ids i l :
  (i, l) ∈ missing_of w ids ↔ i ∈ ids ∧ audio_files w !! (i, l) = None.
Proof.
  unfold missing_of. rewrite list_elem_of_bind. split.
  - intros (j & Hin & Hj). by apply missing_of_key in Hin as [-> ?].
  - intros [Hin Hnone]. exists i. split; [|done].
    assert (¬ is_Some (audio_files w !! (i, l))) as Hno
      by (rewrite Hnone; by intros [? ?]).
    apply elem_of_app. destruct l; [left|right];
      rewrite decide_False by done; by apply list_elem_of_singleton.
Qed.

Lemma NoDup_missing_of w ids : NoDup ids → NoDup (missing_of w ids).
Proof.
  intros Hnd. unfold missing_of. apply NoDup_bind; [| |done].
  - intros i1 i2 [j l] _ _ Hin1 Hin2.
    apply missing_of_key in Hin1 as [Hj1 _].
    apply missing_of_key in Hin2 as [Hj2 _]. congruence.
  - intros i _. do 2 case_decide; cbn; repeat constructor;
      first [by intros ?%elem_of_nil | by intros ?%list_elem_of_singleton].
Qed.

Lemma length_missing_of_empty w ids :
  audio_files w = ∅ → length (missing_of w ids) = (2 * length ids)%nat.
Proof.
  intros Hempty. unfold missing_of. induction ids as [|i ids IH]; [done|].
  cbn [mbind list_bind]. rewrite !length_app, IH, Hempty, !lookup_empty.
  rewrite !decide_False by (by intros [? ?]). cbn. lia.
Qed.

Lemma iloc_in_range df i w :
  0 <= i < Z.of_nat (length df) → ∃ r, iloc df i w = (Ok r, w).
Proof.
  intros Hi. unfold iloc.
  replace (0 <=? i) with true by lia.
  replace ((0 <=? i) && (i <? Z.of_nat (length df))) with true by lia.
  destruct (lookup_lt_is_Some_2 df (Z.to_nat i)) as [r ->]; [lia|].
  by exists r.
Qed.

Lemma prepare_tasks_run df missing_files : ∀ tasks w,
  (∀ i l, (i, l) ∈ missing_files → 0 <= i < Z.of_nat (length df)) →
  ∃ new, prepare_tasks df missing_files tasks w = (Ok (tasks ++ new), w)
    ∧ task_key <$> new = missing_files
    ∧ ∀ t, t ∈ new → t.2 = task_key t.
Proof.
  induction missing_files as [|[i l] missing_files IH]; intros tasks w Hrange.
  - exists []. rewrite app_nil_r.
    split; [done|]. split; [done|]. by intros t Hin%elem_of_nil.
  - cbn [prepare_tasks]. unfold bind at 1.
    destruct (iloc_in_range df i w) as [r ->]; [apply (Hrange i l); by left|].
    match goal with |- context [prepare_tasks _ _ (tasks ++ [?t]) _] =>
      destruct (IH (tasks ++ [t]) w) as (new & -> & Hkeys & Hpaths) end.
    { intros j k Hin. apply (Hrange j k). by right. }
    eexists (_ :: new). split; [by rewrite <- app_assoc|]. split.
    + cbn. by rewrite Hkeys.
    + intros t [->|Hin]%elem_of_cons; [done|by apply Hpaths].
Qed.

Lemma elem_of_failures w done i l e :
  (i, l, e) ∈ failures w done ↔
  e = None ∧ ∃ t, t ∈ done ∧ task_key t = (i, l) ∧ task_succeeds w t = false.
Proof.
  unfold failures, task_key. rewrite list_elem_of_fmap. split.
  - intros (t & [= -> -> ->] & [Hfail Hin]%list_elem_of_filter).
    split; [done|]. by exists t.
  - intros [-> (t & Hin & [= <- <-] & Hfail)]. exists t. split; [done|].
    by apply list_elem_of_filter.
Qed.

Lemma NoDup_fmap_eq {T U} (f : T → U) (l : list T) x y :
  NoDup (f <$> l) → x ∈ l → y ∈ l → f x = f y → x = y.
Proof.
  induction l as [|a l IH]; intros Hnd Hx Hy Hxy.
  - by apply elem_of_nil in Hx.
  - rewrite fmap_cons in Hnd. apply NoDup_cons in Hnd as [Ha Hnd].
    apply elem_of_cons in Hx as [->|Hx]; apply elem_of_cons in Hy as [->|Hy].
    + done.
    + exfalso. apply Ha. rewrite Hxy. apply list_elem_of_fmap. by exists y.
    + exfalso. apply Ha. rewrite <- Hxy. apply list_elem_of_fmap. by exists x.
    + by apply IH.
Qed.

(** No task is reported twice. *)
Lemma NoDup_failures w done :
  NoDup (task_key <$> done) → NoDup (failures w done).
Proof.
  intros Hnd. unfold failures. apply NoDup_fmap_2_strong.
  - intros x y [_ Hx]%list_elem_of_filter [_ Hy]%list_elem_of_filter Hxy.
    apply (NoDup_fmap_eq task_key done x y Hnd Hx Hy).
    unfold task_key. congruence.
  - by apply NoDup_filter, (NoDup_fmap_1 task_key).
Qed.

(** C8: [generate_all_audio] always returns.  It builds one task for each
    pair id of the catalogue and each label whose file is absent at the
    scan, and no other; a task writes to the path of its own pair id and
    label, so the files present at the scan are unchanged; the failure list
    holds exactly the pair ids and labels of the tasks that failed, each
    once, and the
    call returns [True] exactly when it is empty; on a catalogue of three
    pairs with no file there are six tasks. *)
Theorem generate_all_audio_missing_only df w :
  (∀ tasks, completion_order w tasks ≡ₚ tasks) →
  ∃ r w',
    generate_all_audio_run df w = (Ok r, w')
    ∧ generate_all_audio df w = (Ok (run_returned r), w')
    ∧ (∀ i l, (i, l) ∈ run_missing_files r ↔
         0 <= i < Z.of_nat (length df) ∧ audio_files w !! (i, l) = None)
    ∧ NoDup (run_missing_files r)
    ∧ task_key <$> run_tasks r = run_missing_files r
    ∧ (∀ t, t ∈ run_tasks r → t.2 = task_key t)
    ∧ (∀ pth, pth ∉ run_missing_files r →
         audio_files w' !! pth = audio_files w !! pth)
    ∧ (∀ pth, is_Some (audio_files w !! pth) →
         audio_files w' !! pth = audio_files w !! pth)
    ∧ (∀ i l, (∃ e, (i, l, e) ∈ run_failed r) ↔
         ∃ t, t ∈ run_tasks r ∧ task_key t = (i, l)
              ∧ task_succeeds w t = false)
    ∧ NoDup (run_failed r)
    ∧ run_returned r = bool_decide (run_failed r = [])
    ∧ (length df = 3%nat → audio_files w = ∅ →
         length (run_tasks r) = 6%nat).
Proof.
  intros Horder.
  set (missing := missing_of w (range (length df))).
  assert (∀ i l, (i, l) ∈ missing ↔
            0 <= i < Z.of_nat (length df) ∧ audio_files w !! (i, l) = None)
    as Hmissing.
  { intros i l. unfold missing, range. rewrite elem_of_missing_of.
    rewrite elem_of_seqZ. split; (intros [? ?]; split; [lia|done]). }
  assert (NoDup missing) as Hnd
    by (apply NoDup_missing_of, NoDup_seqZ).
  assert (length df = 3%nat → audio_files w = ∅ → length missing = 6%nat)
    as Hsix.
  { intros Hlen Hempty. unfold missing, range.
    rewrite length_missing_of_empty, length_seqZ by done. lia. }
  assert (∀ pth : path, is_Some (audio_files w !! pth) → pth ∉ missing)
    as Hpresent.
  { intros [i l] [x Hx] [_ Hnone]%Hmissing.
    congruence. }
  assert (∃ r w',
    generate_all_audio_run df w = (Ok r, w')
    ∧ run_missing_files r = missing
    ∧ task_key <$> run_tasks r = missing
    ∧ (∀ t, t ∈ run_tasks r → t.2 = task_key t)
    ∧ (∀ pth, pth ∉ missing → audio_files w' !! pth = audio_files w !! pth)
    ∧ run_failed r = failures w (completion_order w (run_tasks r))
    ∧ run_returned r = bool_decide (run_failed r = []))
    as (r & w' & Hrun & Hm & Hkeys & Hpaths & Hframe & Hfailed & Hret).
  { unfold generate_all_audio_run. unfold bind at 1.
    rewrite scan_missing_run, app_nil_l. fold missing.
    destruct missing as [|m0 missing'] eqn:Hmiss.
    - run. eexists _, _. split; [done|]. cbn.
      assert (completion_order w [] = []) as ->
        by apply Permutation_nil_r, Horder.
      repeat split; try done. by intros t ?%elem_of_nil.
    - run.
      destruct (prepare_tasks_run df (m0 :: missing') []
                  (add_ui (info_generating (length (m0 :: missing'))) w))
        as (tasks & -> & Hkeys & Hpaths).
      { intros i l Hin. by apply Hmissing in Hin as [? _]. }
      rewrite app_nil_l.
      destruct (run_completed_run
                  (completion_order w tasks) []
                  (add_ui (info_generating (length (m0 :: missing'))) w))
        as (w1 & Hpool & Htts & Hfiles).
      cbn [completion_order add_ui] in *. rewrite Hpool, app_nil_l.
      assert (failures (add_ui (info_generating (length (m0 :: missing'))) w)
                (completion_order w tasks)
              = failures w (completion_order w tasks)) as -> by done.
      assert (∀ pth, pth ∉ m0 :: missing' →
                audio_files w1 !! pth = audio_files w !! pth) as Hframe.
      { intros pth Hnotin. rewrite Hfiles; [done|].
        intros (t & -> & Hin)%list_elem_of_fmap. apply Hnotin.
        rewrite (Horder tasks) in Hin. rewrite <- Hkeys.
        apply list_elem_of_fmap. exists t. split; [by apply Hpaths|done]. }
      destruct (failures w (completion_order w tasks)) as [|f failed] eqn:Hf;
        run; eexists _, _; (split; [done|]); cbn; by repeat split. }
  exists r, w'. split; [done|].
  split; [unfold generate_all_audio, bind; by rewrite Hrun|].
  rewrite Hm. split; [done|]. split; [done|]. split; [done|].
  split; [done|]. split; [done|]. split; [by intros pth ?%Hpresent%Hframe|].
  split.
  - intros i l. rewrite Hfailed. split.
    + intros (e & [_ (t & Hin & Hk & Hfail)]%elem_of_failures).
      exists t. by rewrite <- (Horder (run_tasks r)).
    + intros (t & Hin & Hk & Hfail). exists None.
      apply elem_of_failures. split; [done|]. exists t.
      by rewrite (Horder (run_tasks r)).
  - split.
    { rewrite Hfailed. apply NoDup_failures.
      by rewrite (Horder (run_tasks r)), Hkeys. }
    split; [done|]. intros Hlen Hempty.
    by rewrite <- (Hsix Hlen Hempty), <- Hkeys, length_fmap.
Qed.

(** * The model at concrete inputs *)

Lemma monotone_clock_new_world : monotone_clock new_world.
Proof. intros i j Hij. cbn. lia. Defined.


(** ** Selection *)


(** With a clock that stands still during the call the pair is selected. *)
Example select_next_pair_frozen_clock :
  (select_next_pair catalogue1 frozen_world).1 = Ok (Some 0).
Proof. vm_compute. reflexivity. Qed.

(** ** Recording *)


Lemma update_progress_incorrect_witness :
  monotone_clock practised_world
  ∧ ∃ w' p',
      update_progress decimal_of_int decimal_of_int 0 false practised_world
        = (Ok (), w')
      ∧ progress (st w') !! 0 = Some p'
      ∧ correct_streak p' = 0
      ∧ interval_days p' = 0%Q
      ∧ next_review p' <= 0
      ∧ ∀ k, (ticks w' ≤ k)%nat → next_review p' <= clock w' k.
Proof.
  split; [exact monotone_clock_new_world|].
  destruct (update_progress_incorrect decimal_of_int decimal_of_int 0
              practised_world)
    as (w' & p' & Hrun & Hp & Hcs & Hiv & Hnr & _ & Hdue).
  exists w', p'. repeat split; try assumption.
  exact (Hdue monotone_clock_new_world).
Defined.



(** ** Completion *)

(** C5 as stated fails on an empty catalogue: with no history at all the
    session is complete. *)
Lemma session_complete_empty_catalogue :
  st new_world = new_session_state
  ∧ (session_complete decimal_day [] new_world).1 = Ok true.
Proof. split; [reflexivity|]. vm_compute. reflexivity. Qed.

Lemma session_complete_spec_witness :
  catalogue1 ≠ []
  ∧ st new_world = new_session_state
  ∧ ∃ b w',
      session_complete decimal_day catalogue1 new_world = (Ok b, w')
      ∧ b = false.
Proof.
  split; [discriminate|]. split; [reflexivity|].
  destruct (session_complete_spec decimal_day catalogue1 new_world)
    as (b & w' & Hrun & _ & _ & _ & Hnew).
  exists b, w'. split; [assumption|].
  apply Hnew; [discriminate|reflexivity].
Defined.

(** ** The progress store *)

(** C6 as stated fails for [extra_questions_added]: five questions are
    added and saved, the process restarts and loads the snapshot, and the
    counter is back at [0]. *)
Lemma extra_questions_added_lost_on_restart :
  let w1 := (add_more_questions decimal_of_int decimal_of_int new_world).2 in
  let w2 := (restart int_of_decimal int_of_decimal w1).2 in
  extra_questions_added (st w1) = 5
  ∧ is_Some (progress_file w1)
  ∧ (restart int_of_decimal int_of_decimal w1).1 = Ok ()
  ∧ extra_questions_added (st w2) = 0.
Proof. vm_compute. repeat split; eauto. Qed.

Lemma save_load_round_trip_witness :
  (∀ z, int_of_decimal (decimal_of_int z) = Some z)
  ∧ save_progress decimal_of_int decimal_of_int practised_world
      = (Ok true,
         (save_progress decimal_of_int decimal_of_int practised_world).2)
  ∧ ∃ w2,
      load_progress int_of_decimal int_of_decimal
        (set_st (λ _, new_session_state)
           (save_progress decimal_of_int decimal_of_int practised_world).2)
        = (Ok true, w2)
      ∧ progress (st w2) = progress (st practised_world)
      ∧ session_correct (st w2) = session_correct (st practised_world)
      ∧ session_total (st w2) = session_total (st practised_world)
      ∧ current_streak (st w2) = current_streak (st practised_world)
      ∧ daily_stats (st w2) = daily_stats (st practised_world)
      ∧ extra_questions_added (st w2) = 0
      ∧ last_shown_type (st w2) = None.
Proof.
  split; [exact int_of_decimal_of_int|].
  split; [reflexivity|].
  apply (save_load_round_trip decimal_of_int int_of_decimal
           decimal_of_int int_of_decimal
           int_of_decimal_of_int int_of_decimal_of_int
           practised_world _ new_session_state).
  reflexivity.
Defined.



(** ** Questions *)

Lemma create_question_sequence_witness :
  iloc catalogue1 0 new_world = (Ok (example_row "voicing"), new_world)
  ∧ ∃ q w',
      create_question 0 catalogue1 new_world = (Ok q, w')
      ∧ length (q_sequence q) = 4%nat
      ∧ occurrences (q_majority q) (q_sequence q) = 3%nat
      ∧ occurrences (q_odd q) (q_sequence q) = 1%nat
      ∧ q_sequence q !! Z.to_nat (q_correct_position q - 1)
          = Some (q_odd q).
Proof.
  split; [reflexivity|].
  destruct (create_question_sequence 0 catalogue1 new_world)
    as [Htotal Hprops].
  destruct (Htotal (example_row "voicing") new_world eq_refl)
    as (q & w' & Hrun).
  destruct (Hprops q w' Hrun) as (Hlen & Hmaj & Hodd & _ & _ & Hpos & _).
  exists q, w'. repeat split; assumption.
Defined.

(** The question drawn in the new process. *)
Example create_question_new_world :
  (q_sequence <$> (create_question 0 catalogue1 new_world).1,
   q_correct_position <$> (create_question 0 catalogue1 new_world).1)
  = (Ok [LA; LB; LA; LA], Ok 2).
Proof. vm_compute. reflexivity. Qed.

(** ** Audio *)

Lemma generate_all_audio_missing_only_witness :
  (∀ tasks, completion_order new_world tasks ≡ₚ tasks)
  ∧ length catalogue3 = 3%nat
  ∧ audio_files new_world = ∅
  ∧ ∃ r w',
      generate_all_audio_run catalogue3 new_world = (Ok r, w')
      ∧ length (run_tasks r) = 6%nat
      ∧ run_returned r = bool_decide (run_failed r = []).
Proof.
  split; [intros tasks; reflexivity|].
  split; [reflexivity|]. split; [reflexivity|].
  destruct (generate_all_audio_missing_only catalogue3 new_world)
    as (r & w' & Hrun & _ & _ & _ & _ & _ & _ & _ & _ & _ & Hret & Hsix).
  { intros tasks. reflexivity. }
  exists r, w'. split; [assumption|]. split; [|assumption].
  apply Hsix; reflexivity.
Defined.

(** Three pairs, no file, every call answered: six tasks, none failed. *)
Example generate_all_audio_three_pairs :
  (λ r, (length (run_tasks r), run_failed r, run_returned r))
    <$> (generate_all_audio_run catalogue3 new_world).1
  = Ok (6%nat, [], true).
Proof. vm_compute. reflexivity. Qed.

(** One file present, one call failing, completion in reverse order: the
    present file is not a task and the failure list names the failed
    task. *)
Example generate_all_audio_one_failure :
  (λ r, (run_missing_files r, run_failed r, run_returned r))
    <$> (generate_all_audio_run catalogue3 failing_world).1
  = Ok ([(0, LB); (1, LA); (1, LB); (2, LA); (2, LB)], [(1, LB, None)],
        false).
Proof. vm_compute. reflexivity. Qed.


(** * More of the scheduler *)

(** ** The selection, once every pair has an entry *)

Lemma iloc_row df i r w :
  0 <= i → df !! Z.to_nat i = Some r → iloc df i w = (Ok r, w).
Proof.
  intros Hi Hr. unfold iloc. pose proof (lookup_lt_Some _ _ _ Hr) as Hlt.
  replace (0 <=? i) with true by lia.
  replace ((0 <=? i) && (i <? Z.of_nat (length df))) with true by lia.
  by rewrite Hr.
Qed.

Lemma elem_of_range n i : i ∈ range n ↔ 0 <= i < Z.of_nat n.
Proof. unfold range. rewrite elem_of_seqZ. lia. Qed.

Lemma scan_due_present df now ids : ∀ due_pairs w,
  (∀ id, id ∈ ids → id ∈ range (length df)) →
  (∀ id, id ∈ ids → is_Some (progress (st w) !! id)) →
  scan_due df now ids due_pairs w
    = (Ok (due_pairs ++ due_list df w now ids), w).
Proof.
  induction ids as [|id ids IH]; intros due_pairs w Hrange Hall.
  - unfold due_list. cbn. by rewrite app_nil_r.
  - destruct (Hall id) as [p Hp]; [by left|].
    assert (0 <= id < Z.of_nat (length df)) as Hid
      by (apply elem_of_range, Hrange; by left).
    destruct (lookup_lt_is_Some_2 df (Z.to_nat id)) as [r Hr]; [lia|].
    cbn [scan_due]. unfold bind at 1.
    rewrite (init_pair_progress_present _ _ _ Hp).
    unfold bind at 1, progress_get. run. rewrite Hp. run.
    unfold due_list. cbn [omap list_omap]. unfold due_entry at 1.
    rewrite Hp, Hr.
    destruct (next_review p <=? now).
    + rewrite (iloc_row df id r w) by (lia || done).
      rewrite IH by (intros; (apply Hrange || apply Hall); by right).
      by rewrite <- app_assoc.
    + apply IH; intros; (apply Hrange || apply Hall); by right.
Qed.

Lemma insert_by_time_Permutation p l : insert_by_time p l ≡ₚ p :: l.
Proof.
  induction l as [|q l IH]; [done|]. cbn.
  destruct (p.1.2 <=? q.1.2); [done|]. by rewrite IH, Permutation_swap.
Qed.

Lemma sort_by_time_Permutation l : sort_by_time l ≡ₚ l.
Proof.
  induction l as [|p l IH]; [done|]. cbn.
  by rewrite insert_by_time_Permutation, IH.
Qed.

Lemma insert_by_time_sorted p l :
  StronglySorted (λ a b : Z * Z * string, a.1.2 ≤ b.1.2) l →
  StronglySorted (λ a b : Z * Z * string, a.1.2 ≤ b.1.2)
    (insert_by_time p l).
Proof.
  induction 1 as [|q l Hsorted IH Hall]; cbn.
  - repeat constructor.
  - destruct (p.1.2 <=? q.1.2) eqn:Hle.
    + constructor; [by constructor|]. constructor; [lia|].
      eapply Forall_impl; [exact Hall|]. intros x Hx. cbn in *. lia.
    + constructor; [done|].
      rewrite insert_by_time_Permutation. constructor; [lia|done].
Qed.

Lemma sort_by_time_sorted l :
  StronglySorted (λ a b : Z * Z * string, a.1.2 ≤ b.1.2) (sort_by_time l).
Proof.
  induction l as [|p l IH]; cbn; [constructor|].
  by apply insert_by_time_sorted.
Qed.

(** The first pair after the sort is an earliest one. *)
Lemma sort_by_time_first l first rest :
  sort_by_time l = first :: rest →
  first ∈ l ∧ ∀ q, q ∈ l → first.1.2 <= q.1.2.
Proof.
  intros Hsort. pose proof (sort_by_time_sorted l) as Hsorted.
  pose proof (sort_by_time_Permutation l) as Hperm.
  rewrite Hsort in Hsorted, Hperm. split.
  - rewrite <- Hperm. by left.
  - intros q Hq. rewrite <- Hperm in Hq.
    apply elem_of_cons in Hq as [->|Hq]; [lia|].
    apply StronglySorted_inv in Hsorted as [_ Hall].
    rewrite Forall_forall in Hall. by apply Hall.
Qed.

Lemma random_choice_run {T} (l : list T) w :
  l ≠ [] →
  ∃ x, random_choice l w = (Ok x, set_draws (S (draws w)) w) ∧ x ∈ l.
Proof.
  intros Hne. unfold random_choice. destruct l as [|a l]; [done|].
  unfold bind, randbelow.
  destruct (lookup_lt_is_Some_2 (a :: l)
              (rng w (draws w) `mod` length (a :: l))%nat) as [x Hx].
  { apply Nat.mod_upper_bound. cbn. lia. }
  rewrite Hx. exists x. split; [done|]. by eapply list_elem_of_lookup_2.
Qed.

Lemma urgent_of_first due first rest :
  sort_by_time due = first :: rest → first ∈ urgent_of due.
Proof.
  intros Hsort. unfold urgent_of. rewrite Hsort.
  apply list_elem_of_filter. split; [|by left].
  unfold timedelta_minutes. lia.
Qed.

Lemma elem_of_urgent_of due q :
  q ∈ urgent_of due ↔
  q ∈ due ∧ ∀ q', q' ∈ due → q.1.2 <= q'.1.2 + timedelta_minutes 5.
Proof.
  unfold urgent_of. destruct (sort_by_time due) as [|first rest] eqn:Hsort.
  - pose proof (sort_by_time_Permutation due) as Hperm. rewrite Hsort in Hperm.
    apply Permutation_nil_l in Hperm as <-. split; [by intros ?%elem_of_nil|].
    by intros [?%elem_of_nil _].
  - destruct (sort_by_time_first _ _ _ Hsort) as [Hfirst Hmin].
    rewrite list_elem_of_filter, <- Hsort, sort_by_time_Permutation. split.
    + intros [Hle Hq]. split; [done|]. intros q' Hq'.
      specialize (Hmin q' Hq'). lia.
    + intros [Hq Hall]. split; [|done]. by apply Hall.
Qed.

(** How [select_next_pair] runs when every pair has an entry and some pair
    is due. *)
Lemma select_next_pair_run df w :
  all_initialised df w →
  let due := due_list df w (clock w (ticks w)) (range (length df)) in
  due ≠ [] →
  ∃ sel w',
    select_next_pair df w = (Ok (Some sel.1.1), w')
    ∧ sel ∈ urgent_of due
    ∧ st w' = set_last_shown_type sel.2 (st w)
    ∧ (∀ last, last_shown_type (st w) = Some last →
         (1 < length (urgent_of due))%nat →
         (∃ q, q ∈ urgent_of due ∧ q.2 ≠ last) → sel.2 ≠ last)
    ∧ ((length (urgent_of due) ≤ 1)%nat → urgent_of due = [sel]).
Proof.
  intros Hall due Hdue. unfold select_next_pair.
  unfold bind at 1, datetime_now. unfold bind at 1.
  rewrite scan_due_present, app_nil_l; [|done|exact Hall].
  change (due_list df (set_ticks (S (ticks w)) w) (clock w (ticks w))
            (range (length df))) with due.
  clearbody due.
  destruct due as [|d0 due'] eqn:Edue; [done|].
  lazy beta iota. rewrite <- Edue in *. clear Edue d0 due'.
  destruct (sort_by_time due) as [|first rest] eqn:Hsort.
  { pose proof (sort_by_time_Permutation due) as Hperm.
    rewrite Hsort in Hperm. by apply Permutation_nil_l in Hperm. }
  pose proof (urgent_of_first _ _ _ Hsort) as Hfirst.
  assert (urgent_of due
          = filter (λ p : Z * Z * string,
                      p.1.2 ≤ first.1.2 + timedelta_minutes 5)
              (first :: rest)) as Hurgent
    by (unfold urgent_of; by rewrite Hsort).
  run. rewrite <- Hurgent.
  set (urgent := urgent_of due) in *.
  destruct (1 <? length urgent)%nat eqn:Hlen.
  - apply Nat.ltb_lt in Hlen.
    assert (urgent ≠ []) as Hne by (intros E; rewrite E in Hlen; cbn in Hlen; lia).
    destruct (last_shown_type (st w)) as [last|] eqn:Hlast.
    + destruct (filter (λ p : Z * Z * string, p.2 ≠ last) urgent)
        as [|d different] eqn:Hdiff.
      * destruct (random_choice_run urgent (set_ticks (S (ticks w)) w) Hne)
          as (sel & Hsel & Hin).
        rewrite Hsel. run.
        exists sel. eexists. split; [done|]. split; [done|]. split; [done|].
        split; [|lia].
        intros last' [= <-] _ (q & Hq & Hqne). exfalso.
        assert (q ∈ filter (λ p : Z * Z * string, p.2 ≠ last) urgent) as Hqin
          by (by apply list_elem_of_filter).
        rewrite Hdiff in Hqin. by apply elem_of_nil in Hqin.
      * destruct (random_choice_run (d :: different)
                    (set_ticks (S (ticks w)) w)) as (sel & Hsel & Hin);
          [done|].
        rewrite Hsel. run.
        rewrite <- Hdiff in Hin. apply list_elem_of_filter in Hin as [Hne' Hin].
        exists sel. eexists. split; [done|]. split; [done|]. split; [done|].
        split; [|lia]. by intros last' [= <-] _ _.
    + destruct (random_choice_run urgent (set_ticks (S (ticks w)) w) Hne)
        as (sel & Hsel & Hin).
      rewrite Hsel. run.
      exists sel. eexists. split; [done|]. split; [done|]. split; [done|].
      split; [by intros last' [=]|lia].
  - apply Nat.ltb_ge in Hlen.
    destruct urgent as [|sel [|]] eqn:Eurgent;
      [by apply elem_of_nil in Hfirst| |cbn in Hlen; lia].
    exists sel. eexists. split; [done|]. split; [by left|]. split; [done|].
    split; [|done]. intros last' _ Hlt. cbn in Hlt. lia.
Qed.

Lemma elem_of_due_list df w now ids q :
  q ∈ due_list df w now ids ↔
  ∃ id p r, id ∈ ids ∧ progress (st w) !! id = Some p
            ∧ df !! Z.to_nat id = Some r ∧ next_review p <= now
            ∧ q = (id, next_review p, col_Type r).
Proof.
  unfold due_list. rewrite list_elem_of_omap. unfold due_entry. split.
  - intros (id & Hid & Hq).
    destruct (progress (st w) !! id) as [p|] eqn:Hp; [|done].
    destruct (df !! Z.to_nat id) as [r|] eqn:Hr; [|done].
    destruct (next_review p <=? now) eqn:Hle; [|done].
    injection Hq as <-. exists id, p, r. repeat split; try done. lia.
  - intros (id & p & r & Hid & Hp & Hr & Hle & ->). exists id.
    split; [done|]. rewrite Hp, Hr.
    by replace (next_review p <=? now) with true by lia.
Qed.

(** X1: once every pair of the catalogue has an entry, [select_next_pair]
    does not raise and leaves the progress map alone; it returns [None]
    exactly when no pair is due at the time it reads; a pair it returns is
    a pair of the catalogue that is due, whose next review is at most five
    minutes after that of any other pair, and its type is remembered as the
    last shown. *)
Theorem select_next_pair_selects_due df w :
  all_initialised df w →
  ∃ res w',
    select_next_pair df w = (Ok res, w')
    ∧ progress (st w') = progress (st w)
    ∧ (res = None ↔
         ∀ id p, id ∈ range (length df) →
           progress (st w) !! id = Some p →
           clock w (ticks w) < next_review p)
    ∧ (∀ id, res = Some id →
         ∃ p r,
           id ∈ range (length df)
           ∧ progress (st w) !! id = Some p
           ∧ df !! Z.to_nat id = Some r
           ∧ next_review p <= clock w (ticks w)
           ∧ (∀ id' p', id' ∈ range (length df) →
                progress (st w) !! id' = Some p' →
                next_review p <= next_review p' + timedelta_minutes 5)
           ∧ last_shown_type (st w') = Some (col_Type r)).
Proof.
  intros Hall.
  set (now := clock w (ticks w)).
  destruct (due_list df w now (range (length df))) as [|d0 due'] eqn:Hdue.
  - exists None, (set_ticks (S (ticks w)) w). split.
    { unfold select_next_pair. unfold bind at 1, datetime_now.
      unfold bind at 1. rewrite scan_due_present, app_nil_l; [|done|done].
      change (due_list df (set_ticks (S (ticks w)) w) (clock w (ticks w))
                (range (length df)))
        with (due_list df w now (range (length df))).
      by rewrite Hdue. }
    split; [done|]. split; [|done]. split; [|done].
    intros _ id p Hid Hp.
    destruct (Z_lt_le_dec now (next_review p)) as [Hlt|Hle]; [done|].
    exfalso. pose proof (proj1 (elem_of_range _ _) Hid) as Hrange.
    destruct (lookup_lt_is_Some_2 df (Z.to_nat id)) as [r Hr]; [lia|].
    assert ((id, next_review p, col_Type r)
            ∈ due_list df w now (range (length df))) as Hin.
    { apply elem_of_due_list. by exists id, p, r. }
    rewrite Hdue in Hin. by apply elem_of_nil in Hin.
  - destruct (select_next_pair_run df w Hall)
      as (sel & w' & Hrun & Hsel & Hst & _).
    { fold now. by rewrite Hdue. }
    fold now in Hsel.
    apply elem_of_urgent_of in Hsel as [Hin Hwindow].
    apply elem_of_due_list in Hin
      as (id & p & r & Hid & Hp & Hr & Hle & ->).
    exists (Some id), w'. split; [done|].
    split; [by rewrite Hst|]. split.
    + split; [done|]. intros Hnone. specialize (Hnone id p Hid Hp).
      fold now in Hnone. lia.
    + intros id0 [= <-]. exists p, r.
      split; [done|]. split; [done|]. split; [done|]. split; [done|].
      split; [|by rewrite Hst].
      intros id' p' Hid' Hp'.
      destruct (Z_lt_le_dec now (next_review p')) as [Hlt|Hle'].
      * unfold timedelta_minutes. lia.
      * pose proof (proj1 (elem_of_range _ _) Hid') as Hrange.
        destruct (lookup_lt_is_Some_2 df (Z.to_nat id')) as [r' Hr']; [lia|].
        assert ((id', next_review p', col_Type r')
                ∈ due_list df w now (range (length df))) as Hin'.
        { apply elem_of_due_list. by exists id', p', r'. }
        exact (Hwindow _ Hin').
Qed.

(** X2: the preference for another type.  When the pair selected has the
    type that was shown last, then every due pair within five minutes of
    the earliest has that type, or the pair selected is the only such
    pair: a type is shown twice in a row only when there is no
    alternative. *)
Theorem select_next_pair_repeats_type_only_if_forced df w last id w' :
  all_initialised df w →
  last_shown_type (st w) = Some last →
  select_next_pair df w = (Ok (Some id), w') →
  last_shown_type (st w') = Some last →
  let urgent :=
    urgent_of (due_list df w (clock w (ticks w)) (range (length df))) in
  (∀ q, q ∈ urgent → q.2 = last) ∨ (∃ sel, urgent = [sel] ∧ sel.1.1 = id).
Proof.
  intros Hall Hlast Hrun Hsame urgent. subst urgent.
  destruct (due_list df w (clock w (ticks w)) (range (length df)))
    as [|d0 due'] eqn:Hdue.
  { left. by intros q Hq%elem_of_nil. }
  destruct (select_next_pair_run df w Hall)
    as (sel & w'' & Hrun' & Hsel & Hst & Havoid & Hsingle).
  { by rewrite Hdue. }
  rewrite Hdue in Hsel, Havoid, Hsingle.
  set (urgent := urgent_of (d0 :: due')) in *.
  rewrite Hrun in Hrun'. injection Hrun' as -> ->.
  rewrite Hst in Hsame. cbn in Hsame. injection Hsame as Hsame.
  destruct (decide (1 < length urgent)%nat) as [Hlen|Hlen].
  - left. intros q Hq. destruct (decide (q.2 = last)) as [|Hne]; [done|].
    exfalso. apply (Havoid last Hlast Hlen); [by exists q|done].
  - right. exists sel. split; [|done]. apply Hsingle. lia.
Qed.

(** ** Recording, continued *)

Section RecordingMore.

Variable str_of_int : Z → string.
Variable isoformat : Z → string.

(** What [save_progress] does, by whether the file can be opened. *)
Lemma save_progress_file w :
  save_progress str_of_int isoformat w =
    if disk_writable w then
      (Ok true,
       set_progress_file
         (Some (Document (snapshot_of str_of_int isoformat (st w)
                            (clock w (ticks w)))))
         (set_ticks (S (ticks w)) w))
    else
      (Ok false, add_ui (error_save OSError) (set_ticks (S (ticks w)) w)).
Proof.
  unfold save_progress, snapshot_of. run.
  by destruct (disk_writable w).
Qed.

(** [update_progress] is the change of the entry followed by a save. *)
Lemma update_progress_then_save pair_id is_correct w :
  ∃ w1,
    update_progress str_of_int isoformat pair_id is_correct w
      = (Ok (), (save_progress str_of_int isoformat w1).2)
    ∧ st w1 =
        set_progress
          (<[pair_id := answered is_correct
                          (clock w (recording_tick w pair_id))
                          (entry_at w pair_id)]>) (st w)
    ∧ clock w1 = clock w
    ∧ ticks w1 = S (recording_tick w pair_id)
    ∧ progress_file w1 = progress_file w
    ∧ disk_writable w1 = disk_writable w
    ∧ audio_files w1 = audio_files w
    ∧ ui w1 = ui w.
Proof.
  unfold update_progress, init_pair_progress, entry_at, recording_tick. run.
  destruct (progress (st w) !! pair_id) as [p|] eqn:Hp; run.
  - rewrite Hp. destruct is_correct; run.
    + rewrite Hp; run. rewrite !lookup_alter_eq, Hp.
      cbn [fmap option_fmap option_map]. run.
      set (p1 := with_ever_correct true _).
      pose proof (new_interval_ge_1 p1) as Hge.
      destruct (new_interval p1 <? 1) eqn:Hlt; [apply Z.ltb_lt in Hlt; lia|].
      run.
      match goal with |- context [save_progress _ _ ?w0] =>
        exists w0;
        destruct (save_progress_run str_of_int isoformat w0)
          as (w' & Hs & _); rewrite Hs end;
        (split; [reflexivity|]); (split; [|repeat split; reflexivity]); cbn;
        unfold set_progress; cbn; f_equal;
        by rewrite (alter_Some _ _ _ _ Hp), !alter_insert_eq.
    + match goal with |- context [save_progress _ _ ?w0] =>
        exists w0;
        destruct (save_progress_run str_of_int isoformat w0)
          as (w' & Hs & _); rewrite Hs end;
        (split; [reflexivity|]); (split; [|repeat split; reflexivity]); cbn;
        unfold set_progress; cbn; f_equal;
        by rewrite (alter_Some _ _ _ _ Hp), !alter_insert_eq.
  - rewrite lookup_insert_eq. run.
    destruct is_correct; run.
    + rewrite ?lookup_insert_eq; run.
      rewrite !lookup_alter_eq, lookup_insert_eq.
      cbn [fmap option_fmap option_map]. run.
      set (p1 := with_ever_correct true _).
      pose proof (new_interval_ge_1 p1) as Hge.
      destruct (new_interval p1 <? 1) eqn:Hlt; [apply Z.ltb_lt in Hlt; lia|].
      run.
      match goal with |- context [save_progress _ _ ?w0] =>
        exists w0;
        destruct (save_progress_run str_of_int isoformat w0)
          as (w' & Hs & _); rewrite Hs end;
        (split; [reflexivity|]); (split; [|repeat split; reflexivity]); cbn;
        unfold set_progress; cbn; f_equal;
        by rewrite !alter_insert_eq.
    + match goal with |- context [save_progress _ _ ?w0] =>
        exists w0;
        destruct (save_progress_run str_of_int isoformat w0)
          as (w' & Hs & _); rewrite Hs end;
        (split; [reflexivity|]); (split; [|repeat split; reflexivity]); cbn;
        unfold set_progress; cbn; f_equal;
        by rewrite !alter_insert_eq.
Qed.

End RecordingMore.



Section RecordingProps.

Variable str_of_int : Z → string.
Variable int_of_str : string → option Z.
Variable isoformat : Z → string.
Variable fromisoformat : string → option Z.

Hypothesis int_of_str_of_int : ∀ z, int_of_str (str_of_int z) = Some z.
Hypothesis fromisoformat_isoformat :
  ∀ t, fromisoformat (isoformat t) = Some t.







End RecordingProps.

(** ** The daily statistics and the buttons *)

Ltac run_session :=
  run;
  cbn [progress session_correct session_total current_streak daily_stats
       extra_questions_added last_shown_type set_daily_stats
       set_session_total set_session_correct set_current_streak
       set_extra_questions_added].

Section CallersProps.

Variable str_of_int : Z → string.
Variable int_of_str : string → option Z.
Variable isoformat : Z → string.
Variable fromisoformat : string → option Z.
Variable strftime_Ymd : Z → string.

Lemma update_daily_stats_run is_correct w :
  ∃ w',
    update_daily_stats isoformat strftime_Ymd is_correct w = (Ok (), w')
    ∧ st w' =
        set_daily_stats
          (<[strftime_Ymd (clock w (ticks w)) :=
               counted is_correct (today_before isoformat strftime_Ymd w)]>)
          (st w)
    ∧ clock w' = clock w
    ∧ (ticks w < ticks w')%nat
    ∧ progress_file w' = progress_file w
    ∧ disk_writable w' = disk_writable w
    ∧ ui w' = ui w.
Proof.
  unfold update_daily_stats, daily_get, today_before, counted. run_session.
  set (today := strftime_Ymd (clock w (ticks w))).
  destruct (daily_stats (st w) !! today) as [stats|] eqn:Hstats; run_session;
    rewrite ?Hstats, ?lookup_insert_eq; run_session;
    destruct is_correct; run_session;
    rewrite ?lookup_insert_eq; run_session;
    (eexists; split; [reflexivity|]); cbn;
    (split; [|repeat split; lia]);
    unfold set_daily_stats; cbn; rewrite ?insert_insert_eq;
    first [done | do 3 f_equal; lia | do 2 f_equal; lia].
Qed.

(** X8: [update_daily_stats] counts the answer on the day of the clock
    reading it takes: that day's entry, created at zero when there is
    none, gets one more question and, for a correct answer, one more
    correct answer; its start stamp and the other days are untouched, and
    so is the rest of the session; no day ever counts more correct
    answers than answers. *)
Theorem update_daily_stats_counts is_correct w :
  let today := strftime_Ymd (clock w (ticks w)) in
  let before := today_before isoformat strftime_Ymd w in
  ∃ w' after,
    update_daily_stats isoformat strftime_Ymd is_correct w = (Ok (), w')
    ∧ daily_stats (st w') !! today = Some after
    ∧ questions_answered after = questions_answered before + 1
    ∧ correct_answers after
        = correct_answers before + (if is_correct then 1 else 0)
    ∧ started_at after = started_at before
    ∧ (∀ day, day ≠ today →
         daily_stats (st w') !! day = daily_stats (st w) !! day)
    ∧ progress (st w') = progress (st w)
    ∧ session_total (st w') = session_total (st w)
    ∧ (daily_stats_ok (daily_stats (st w)) →
       daily_stats_ok (daily_stats (st w'))).
Proof.
  intros today before.
  destruct (update_daily_stats_run is_correct w) as (w' & Hrun & Hst & _).
  exists w', (counted is_correct before).
  split; [done|]. rewrite Hst. cbn. fold today.
  split; [by rewrite lookup_insert_eq|].
  split; [done|]. split; [done|]. split; [done|].
  split; [intros day Hne; by rewrite lookup_insert_ne|].
  split; [done|]. split; [done|].
  intros Hok day stats. destruct (decide (day = today)) as [->|Hne].
  - rewrite lookup_insert_eq. intros [= <-].
    assert (0 <= correct_answers before <= questions_answered before)
      as Hbefore.
    { unfold before, today_before. fold today.
      destruct (daily_stats (st w) !! today) as [s|] eqn:Hs;
        [by apply (Hok today)|cbn; lia]. }
    unfold counted. cbn [correct_answers questions_answered].
    fold before. clearbody before. destruct is_correct; lia.
  - rewrite lookup_insert_ne by done. apply Hok.
Qed.





(** X11: [Restart Session] wipes the progress map, the session counters
    and the extra questions, in memory and, when the file can be written,
    in the snapshot, but keeps the daily statistics and the type shown
    last; so on a catalogue that is not empty the session is complete
    again right after the restart exactly when today's count has already
    reached [DAILY_TARGET]. *)
Theorem restart_session_keeps_days df w :
  ∃ w',
    restart_session str_of_int isoformat w = (Ok (), w')
    ∧ progress (st w') = ∅
    ∧ session_correct (st w') = 0
    ∧ session_total (st w') = 0
    ∧ current_streak (st w') = 0
    ∧ extra_questions_added (st w') = 0
    ∧ daily_stats (st w') = daily_stats (st w)
    ∧ last_shown_type (st w') = last_shown_type (st w)
    ∧ (disk_writable w = true →
         ∃ d, progress_file w' = Some (Document d)
              ∧ doc_progress d = Some []
              ∧ doc_daily_stats d = Some (daily_stats (st w)))
    ∧ (df ≠ [] →
         ∃ b w'',
           session_complete strftime_Ymd df w' = (Ok b, w'')
           ∧ (b = true ↔ DAILY_TARGET <= answered_today strftime_Ymd w')).
Proof.
  unfold restart_session. run_session. rewrite save_progress_file. cbn.
  destruct (disk_writable w) eqn:Hdisk; cbn;
    (eexists; split; [reflexivity|]); cbn;
    (split; [done|]); (split; [done|]); (split; [done|]); (split; [done|]);
    (split; [done|]); (split; [done|]); (split; [done|]).
  - split.
    { intros _. eexists. split; [reflexivity|]. unfold snapshot_of; cbn.
      by rewrite map_to_list_empty. }
    intros Hdf.
    match goal with |- context [session_complete _ _ ?w0] =>
      destruct (session_complete_run strftime_Ymd df w0)
        as (b & w'' & Hrun & Hiff) end.
    exists b, w''. split; [done|]. rewrite Hiff. cbn. split.
    + intros [Hge|Hall]; [lia|]. exfalso.
      destruct (Hall 0) as (p & Hp & _).
      { apply elem_of_range. destruct df; [done|]. cbn. lia. }
      cbn in Hp. by rewrite lookup_empty in Hp.
    + intros Hge. left. lia.
  - split; [done|]. intros Hdf.
    match goal with |- context [session_complete _ _ ?w0] =>
      destruct (session_complete_run strftime_Ymd df w0)
        as (b & w'' & Hrun & Hiff) end.
    exists b, w''. split; [done|]. rewrite Hiff. cbn. split.
    + intros [Hge|Hall]; [lia|]. exfalso.
      destruct (Hall 0) as (p & Hp & _).
      { apply elem_of_range. destruct df; [done|]. cbn. lia. }
      cbn in Hp. by rewrite lookup_empty in Hp.
    + intros Hge. left. lia.
Qed.

(** The loop of [continue_practice]. *)
Lemma continue_practice_loop ids : ∀ w,
  NoDup ids →
  ∃ w',
    for_each ids (λ i,
      w <- get ;;
      match progress (st w) !! i with
      | Some _ =>
          now <- datetime_now ;;
          progress_set i (with_next_review now)
      | None => ret ()
      end) w = (Ok (), w')
    ∧ clock w' = clock w
    ∧ (ticks w ≤ ticks w')%nat
    ∧ progress_file w' = progress_file w
    ∧ daily_stats (st w') = daily_stats (st w)
    ∧ extra_questions_added (st w') = extra_questions_added (st w)
    ∧ ∀ i,
        match progress (st w) !! i with
        | None => progress (st w') !! i = None
        | Some p =>
            if decide (i ∈ ids) then
              ∃ k, (ticks w ≤ k < ticks w')%nat
                   ∧ progress (st w') !! i
                       = Some (with_next_review (clock w k) p)
            else progress (st w') !! i = Some p
        end.
Proof.
  intros w. 
  match goal with |- context [for_each ids ?f w] => set (body := f) end.
  assert (Hstep : ∀ i w, body i w =
    match progress (st w) !! i with
    | Some _ =>
        (Ok (), set_st (set_progress
                  (alter (with_next_review (clock w (ticks w))) i))
                  (set_ticks (S (ticks w)) w))
    | None => (Ok (), w)
    end).
  { intros i w0. unfold body. run. by destruct (progress (st w0) !! i). }
  clearbody body. revert w.
  induction ids as [|i ids IH]; intros w Hnd.
  - exists w. split; [done|]. repeat split; try done.
    intros i. destruct (progress (st w) !! i); [|done].
    by rewrite decide_False by (by intros ?%elem_of_nil).
  - apply NoDup_cons in Hnd as [Hi Hnd]. cbn [for_each].
    unfold bind at 1. rewrite Hstep.
    destruct (progress (st w) !! i) as [p|] eqn:Hp.
    + match goal with |- context [for_each _ _ ?w0] =>
        destruct (IH w0 Hnd) as (w' & -> & Hc & Ht & Hf & Hd & He & Hall) end.
      cbn in Hc, Ht, Hf, Hd, He.
      exists w'. split; [done|]. split; [done|]. split; [lia|].
      split; [done|]. split; [done|]. split; [done|].
      intros j. specialize (Hall j). cbn in Hall.
      destruct (decide (j = i)) as [->|Hne].
      * rewrite lookup_alter_eq, Hp in Hall. cbn in Hall.
        rewrite decide_False in Hall by done.
        rewrite Hp, decide_True by (by left).
        exists (ticks w). split; [lia|done].
      * rewrite lookup_alter_ne in Hall by done.
        destruct (progress (st w) !! j) as [q|]; [|done].
        destruct (decide (j ∈ ids)) as [Hin|Hnotin].
        -- rewrite decide_True by (by right).
           destruct Hall as (k & Hk & Hq). exists k. split; [lia|done].
        -- rewrite decide_False; [done|].
           intros [?|?]%elem_of_cons; done.
    + destruct (IH w Hnd) as (w' & -> & Hc & Ht & Hf & Hd & He & Hall).
      exists w'. split; [done|]. repeat split; try done.
      intros j. specialize (Hall j).
      destruct (decide (j = i)) as [->|Hne].
      * by rewrite Hp in Hall |- *.
      * destruct (progress (st w) !! j) as [q|]; [|done].
        destruct (decide (j ∈ ids)) as [Hin|Hnotin].
        -- by rewrite decide_True by (by right).
        -- rewrite decide_False; [done|].
           intros [?|?]%elem_of_cons; done.
Qed.

(** X12: [Continue Practice] gives the entries of the first five pairs of
    the catalogue (of all pairs when there are fewer) a next review read
    from the clock during the call, and changes nothing else: streaks,
    intervals, ease factors and [ever_correct] are kept, pairs without an
    entry get none, the other entries keep their next review, and nothing
    is saved. *)
Theorem continue_practice_resets df w :
  ∃ w',
    continue_practice df w = (Ok (), w')
    ∧ progress_file w' = progress_file w
    ∧ (∀ i, progress (st w) !! i = None → progress (st w') !! i = None)
    ∧ ∀ i p, progress (st w) !! i = Some p →
        ∃ p',
          progress (st w') !! i = Some p'
          ∧ correct_streak p' = correct_streak p
          ∧ ease_factor p' = ease_factor p
          ∧ interval_days p' = interval_days p
          ∧ ever_correct p' = ever_correct p
          ∧ (0 <= i < Z.of_nat (Nat.min 5 (length df)) →
               ∃ k, (ticks w ≤ k < ticks w')%nat
                    ∧ next_review p' = clock w k)
          ∧ (¬ 0 <= i < Z.of_nat (Nat.min 5 (length df)) →
               next_review p' = next_review p).
Proof.
  unfold continue_practice.
  destruct (continue_practice_loop (range (Nat.min 5 (length df))) w)
    as (w' & Hrun & _ & _ & Hfile & _ & _ & Hall); [apply NoDup_seqZ|].
  exists w'. split; [done|]. split; [done|]. split.
  - intros i Hi. specialize (Hall i). by rewrite Hi in Hall.
  - intros i p Hp. specialize (Hall i). rewrite Hp in Hall.
    destruct (decide (i ∈ range (Nat.min 5 (length df)))) as [Hin|Hnotin].
    + destruct Hall as (k & Hk & Hp'). eexists. split; [exact Hp'|].
      repeat split; try done.
      * intros _. by exists k.
      * intros Hout. by apply elem_of_range in Hin.
    + exists p. split; [done|]. repeat split; try done.
      intros Hi. exfalso. by apply Hnotin, elem_of_range.
Qed.

(** X13: [Continue Practice] reopens the session.  When the clock does not
    run backwards, the first pair of the catalogue has an entry and
    today's count is below the target, [session_complete] answers false
    right after the button. *)
Theorem continue_practice_reopens df w w' :
  continue_practice df w = (Ok (), w') →
  monotone_clock w →
  df ≠ [] →
  is_Some (progress (st w) !! 0) →
  answered_today strftime_Ymd w'
    < DAILY_TARGET + extra_questions_added (st w') →
  (session_complete strftime_Ymd df w').1 = Ok false.
Proof.
  intros Hrun Hmono Hdf [p Hp] Htarget.
  unfold continue_practice in Hrun.
  destruct (continue_practice_loop (range (Nat.min 5 (length df))) w)
    as (w0 & Hrun0 & Hclock & _ & _ & _ & _ & Hall); [apply NoDup_seqZ|].
  rewrite Hrun in Hrun0. injection Hrun0 as <-.
  specialize (Hall 0). rewrite Hp in Hall.
  rewrite decide_True in Hall
    by (apply elem_of_range; destruct df; [done|cbn; lia]).
  destruct Hall as (k & Hk & Hp').
  destruct (session_complete_run strftime_Ymd df w')
    as (b & w'' & Hsc & Hiff).
  rewrite Hsc. cbn. destruct b; [|done]. exfalso.
  destruct Hiff as [Hiff _]. destruct (Hiff eq_refl) as [Hge|Hrev]; [lia|].
  destruct (Hrev 0) as (q & Hq & _ & Hlater).
  { apply elem_of_range. destruct df; [done|]. cbn. lia. }
  rewrite Hp' in Hq. injection Hq as <-. cbn in Hlater.
  rewrite Hclock in Hlater.
  pose proof (Hmono k (S (ticks w')) ltac:(lia)). lia.
Qed.

End CallersProps.

(** *** The statistics *)

Lemma entries_added_refl w : entries_added [] w w.
Proof.
  split; [by destruct w as [[] ]|]. split; [done|]. split; [done|].
  split; [by intros i _ ?%elem_of_nil|done].
Qed.

Lemma entries_added_weaken ids ids' w w' :
  entries_added ids w w' →
  (∀ i, i ∈ ids → i ∈ ids') →
  (∀ i, i ∈ ids' → i ∈ ids ∨ is_Some (progress (st w) !! i)) →
  entries_added ids' w w'.
Proof.
  intros (Hw & Ht & Hsome & Hnew & Hnone) Hsub Hsup.
  split; [done|]. split; [done|]. split; [done|]. split.
  - intros i Hi Hin. destruct (Hsup i Hin) as [?|[p Hp]]; [by apply Hnew|].
    by rewrite Hi in Hp.
  - intros i Hi Hin. apply Hnone; [done|]. intros ?. by apply Hin, Hsub.
Qed.

Lemma entries_added_trans ids1 ids2 w w1 w2 :
  entries_added ids1 w w1 →
  entries_added ids2 w1 w2 →
  entries_added (ids1 ++ ids2) w w2.
Proof.
  intros (Hw1 & Ht1 & Hsome1 & Hnew1 & Hnone1)
         (Hw2 & Ht2 & Hsome2 & Hnew2 & Hnone2).
  assert (clock w1 = clock w) as Hclock by (by rewrite Hw1).
  split.
  { etrans; [exact Hw2|]. generalize (progress (st w2)) (ticks w2).
    intros m t. by rewrite Hw1. }
  split; [lia|]. split; [by intros i p ?%Hsome1%Hsome2|]. split.
  - intros i Hi Hin. destruct (decide (i ∈ ids1)) as [Hin1|Hnotin1].
    + destruct (Hnew1 i Hi Hin1) as (k & Hk & Hp).
      exists k. split; [lia|]. by apply Hsome2.
    + apply elem_of_app in Hin as [?|Hin2]; [done|].
      destruct (Hnew2 i (Hnone1 i Hi Hnotin1) Hin2) as (k & Hk & Hp).
      exists k. split; [lia|]. by rewrite <- Hclock.
  - intros i Hi Hnotin. apply not_elem_of_app in Hnotin as [? ?].
    by apply Hnone2; [apply Hnone1|].
Qed.

Lemma entries_added_init w i :
  progress (st w) !! i = None →
  entries_added [i] w
    (set_st (set_progress (<[i := new_entry (clock w (ticks w))]>))
       (set_ticks (S (ticks w)) w)).
Proof.
  intros Hi. split; [done|]. cbn. split; [lia|]. split.
  - intros j p Hj. rewrite lookup_insert_ne; [done|]. intros ->.
    by rewrite Hi in Hj.
  - split.
    + intros j _ ->%list_elem_of_singleton. exists (ticks w).
      split; [lia|]. by rewrite lookup_insert_eq.
    + intros j Hj Hne. rewrite lookup_insert_ne; [done|].
      intros ->. apply Hne. by apply list_elem_of_singleton.
Qed.

(** The entries [init_pair_progress] creates count neither as mastered nor
    as learning, like the pairs without an entry. *)
Lemma entries_added_counts ids w w' :
  entries_added ids w w' →
  ∀ j, streak_at w' j = streak_at w j
       ∧ ever_correct_at w' j = ever_correct_at w j.
Proof.
  intros (_ & _ & Hsome & Hnew & Hnone) j. unfold streak_at, ever_correct_at.
  destruct (progress (st w) !! j) as [p|] eqn:Hj.
  - by rewrite (Hsome _ _ Hj).
  - destruct (decide (j ∈ ids)) as [Hin|Hnotin].
    + destruct (Hnew j Hj Hin) as (k & _ & ->). done.
    + by rewrite (Hnone j Hj Hnotin).
Qed.

Lemma entries_added_mastered_of ids w w' l :
  entries_added ids w w' → mastered_of w' l = mastered_of w l.
Proof.
  intros Hadd. unfold mastered_of. apply list_filter_iff. intros j.
  by rewrite (proj1 (entries_added_counts _ _ _ Hadd j)).
Qed.

Lemma entries_added_learning_of ids w w' l :
  entries_added ids w w' → learning_of w' l = learning_of w l.
Proof.
  intros Hadd. unfold learning_of. apply list_filter_iff. intros j.
  destruct (entries_added_counts _ _ _ Hadd j) as [-> ->]. done.
Qed.

Lemma entries_added_row_of ids df w w' type_name :
  entries_added ids w w' → row_of df w' type_name = row_of df w type_name.
Proof.
  intros Hadd. unfold row_of.
  by rewrite (entries_added_mastered_of _ _ _ _ Hadd),
             (entries_added_learning_of _ _ _ _ Hadd).
Qed.

(** The inner loop of [get_statistics] adds to its two counters the
    numbers of mastered and of learning pairs. *)
Lemma count_pairs_run ids : ∀ mastered learning w,
  ∃ w',
    count_pairs ids mastered learning w
      = (Ok (mastered + Z.of_nat (length (mastered_of w ids)),
             learning + Z.of_nat (length (learning_of w ids))), w')
    ∧ entries_added ids w w'.
Proof.
  induction ids as [|i ids IH]; intros mastered learning w.
  - exists w. split; [|apply entries_added_refl].
    cbn. unfold ret. do 3 f_equal; lia.
  - cbn [count_pairs]. unfold bind at 1.
    assert (∀ m l w1 w',
      entries_added [i] w w1 →
      entries_added ids w1 w' →
      m + Z.of_nat (length (mastered_of w ids))
        = mastered + Z.of_nat (length (mastered_of w (i :: ids))) →
      l + Z.of_nat (length (learning_of w ids))
        = learning + Z.of_nat (length (learning_of w (i :: ids))) →
      count_pairs ids m l w1
        = (Ok (m + Z.of_nat (length (mastered_of w1 ids)),
               l + Z.of_nat (length (learning_of w1 ids))), w') →
      ∃ w', count_pairs ids m l w1
              = (Ok (mastered + Z.of_nat (length (mastered_of w (i :: ids))),
                     learning + Z.of_nat (length (learning_of w (i :: ids)))),
                 w')
            ∧ entries_added (i :: ids) w w') as Hclose.
    { intros m l w1 w' Hstep Hadd Hm Hl Hrun. exists w'.
      split; [|exact (entries_added_trans _ _ _ _ _ Hstep Hadd)].
      rewrite Hrun, (entries_added_mastered_of _ _ _ _ Hstep),
        (entries_added_learning_of _ _ _ _ Hstep). by rewrite Hm, Hl. }
    assert (mastered_of w (i :: ids)
            = if decide (3 ≤ streak_at w i) then i :: mastered_of w ids
              else mastered_of w ids) as Hmastered
      by (unfold mastered_of; by rewrite filter_cons).
    assert (learning_of w (i :: ids)
            = if decide (streak_at w i < 3 ∧ ever_correct_at w i = true)
              then i :: learning_of w ids else learning_of w ids) as Hlearning
      by (unfold learning_of; by rewrite filter_cons).
    destruct (progress (st w) !! i) as [p|] eqn:Hi.
    + rewrite (init_pair_progress_present _ _ _ Hi).
      unfold bind at 1, progress_get, bind at 1, get. rewrite Hi.
      unfold ret at 1.
      assert (entries_added [i] w w) as Hstep.
      { eapply entries_added_weaken;
          [apply entries_added_refl|by intros ? ?%elem_of_nil|].
        intros j ->%list_elem_of_singleton. right. by eexists. }
      assert (streak_at w i = correct_streak p) as Hs
        by (unfold streak_at; by rewrite Hi).
      assert (ever_correct_at w i = ever_correct p) as He
        by (unfold ever_correct_at; by rewrite Hi).
      rewrite Hs, He in *.
      destruct (3 <=? correct_streak p) eqn:Hm.
      * apply Z.leb_le in Hm.
        destruct (IH (mastered + 1) learning w) as (w' & Hrun & Hadd).
        apply (Hclose _ _ _ w' Hstep Hadd); [| |done].
        -- rewrite Hmastered, decide_True by done. cbn [length]. lia.
        -- rewrite Hlearning, decide_False by lia. done.
      * apply Z.leb_gt in Hm.
        destruct (ever_correct p) eqn:Hever.
        -- destruct (IH mastered (learning + 1) w) as (w' & Hrun & Hadd).
           apply (Hclose _ _ _ w' Hstep Hadd); [| |done].
           ++ rewrite Hmastered, decide_False by lia. done.
           ++ rewrite Hlearning, decide_True by done. cbn [length]. lia.
        -- destruct (IH mastered learning w) as (w' & Hrun & Hadd).
           apply (Hclose _ _ _ w' Hstep Hadd); [| |done].
           ++ rewrite Hmastered, decide_False by lia. done.
           ++ rewrite Hlearning, decide_False by (by intros [_ ?]). done.
    + rewrite (init_pair_progress_absent _ _ Hi).
      pose proof (entries_added_init _ _ Hi) as Hstep.
      set (w1 := set_st _ _) in *.
      unfold bind at 1, progress_get, bind at 1, get.
      assert (progress (st w1) !! i = Some (new_entry (clock w (ticks w))))
        as Hi1 by (unfold w1; cbn; by rewrite lookup_insert_eq).
      rewrite Hi1. unfold ret at 1. cbn [new_entry correct_streak ever_correct].
      change (3 <=? 0) with false. cbv iota.
      assert (streak_at w i = 0) as Hs
        by (unfold streak_at; by rewrite Hi).
      assert (ever_correct_at w i = false) as He
        by (unfold ever_correct_at; by rewrite Hi).
      rewrite Hs, He in *.
      destruct (IH mastered learning w1) as (w' & Hrun & Hadd).
      apply (Hclose _ _ _ w' Hstep Hadd); [| |done].
      * rewrite Hmastered, decide_False by lia. done.
      * rewrite Hlearning, decide_False by (by intros [_ ?]). done.
Qed.

(** The outer loop appends one row per type. *)
Lemma count_types_run df types : ∀ stats w,
  ∃ w',
    count_types df types stats w
      = (Ok (stats ++ (row_of df w <$> types)), w')
    ∧ entries_added (types ≫= type_pairs df) w w'.
Proof.
  induction types as [|t types IH]; intros stats w.
  - exists w. split; [|apply entries_added_refl].
    cbn. by rewrite app_nil_r.
  - cbn [count_types]. unfold bind at 1.
    destruct (count_pairs_run (type_pairs df t) 0 0 w) as (w1 & -> & Hadd1).
    cbn [fst snd]. rewrite !Z.add_0_l.
    destruct (IH (stats ++ [row_of df w t]) w1) as (w' & Hrun & Hadd).
    exists w'. split.
    + etrans; [exact Hrun|]. rewrite <- app_assoc. cbn [app fmap list_fmap].
      do 4 f_equal. apply list_fmap_ext. intros _ t' _.
      apply (entries_added_row_of _ _ _ _ _ Hadd1).
    + cbn [mbind list_bind]. exact (entries_added_trans _ _ _ _ _ Hadd1 Hadd).
Qed.

Lemma elem_of_unique_from types : ∀ seen t,
  t ∈ unique_from seen types ↔ t ∈ types ∧ t ∉ seen.
Proof.
  induction types as [|x types IH]; intros seen t; cbn.
  - split; [by intros ?%elem_of_nil|by intros [?%elem_of_nil _]].
  - destruct (decide (x ∈ seen)) as [Hx|Hx].
    + rewrite IH, elem_of_cons. split.
      * intros [? ?]. split; [by right|done].
      * intros [[->|?] ?]; done.
    + rewrite !elem_of_cons, IH, elem_of_cons. split.
      * intros [->|[? Hnot]]; [by split; [left|]|]. split; [by right|].
        intros ?. apply Hnot. by right.
      * intros [[->|?] ?]; [by left|].
        destruct (decide (t = x)) as [->|?]; [by left|]. right.
        split; [done|]. by intros [?|?].
Qed.

Lemma NoDup_unique_from types : ∀ seen, NoDup (unique_from seen types).
Proof.
  induction types as [|x types IH]; intros seen; cbn; [constructor|].
  destruct (decide (x ∈ seen)); [apply IH|].
  constructor; [|apply IH]. rewrite elem_of_unique_from.
  intros [_ Hx]. apply Hx. by left.
Qed.

Lemma elem_of_unique types t : t ∈ unique types ↔ t ∈ types.
Proof.
  unfold unique. rewrite elem_of_unique_from. split; [by intros [? _]|].
  intros ?. split; [done|]. by intros ?%elem_of_nil.
Qed.

Lemma elem_of_type_pairs df type_name i :
  i ∈ type_pairs df type_name ↔
  ∃ r, 0 <= i ∧ df !! Z.to_nat i = Some r ∧ col_Type r = type_name.
Proof.
  unfold type_pairs. rewrite list_elem_of_fmap. split.
  - intros ([j r] & -> & [Ht Hzip]%list_elem_of_filter). cbn in *.
    apply elem_of_lookup_zip_with in Hzip as (n & j' & r' & [= <- <-] & Hj & Hr).
    apply lookup_seqZ in Hj as [-> _]. exists r.
    split; [lia|]. split; [|done].
    by replace (Z.to_nat (0 + Z.of_nat n)) with n by lia.
  - intros (r & Hi & Hr & Ht). exists (i, r). split; [done|].
    apply list_elem_of_filter. split; [done|].
    apply elem_of_lookup_zip_with. exists (Z.to_nat i), i, r.
    split; [done|]. split; [|done]. apply lookup_seqZ.
    pose proof (lookup_lt_Some _ _ _ Hr). lia.
Qed.

(** Every pair of the catalogue is a pair of one of its types. *)
Lemma elem_of_types_pairs df i :
  i ∈ unique (col_Type <$> df) ≫= type_pairs df ↔ i ∈ range (length df).
Proof.
  rewrite list_elem_of_bind, elem_of_range. split.
  - intros (t & (r & Hi & Hr & _)%elem_of_type_pairs & _).
    pose proof (lookup_lt_Some _ _ _ Hr). lia.
  - intros Hi. destruct (lookup_lt_is_Some_2 df (Z.to_nat i)) as [r Hr]; [lia|].
    exists (col_Type r). split.
    + apply elem_of_type_pairs. exists r. split; [lia|done].
    + apply elem_of_unique, list_elem_of_fmap. exists r. split; [done|].
      by eapply list_elem_of_lookup_2.
Qed.

Lemma get_statistics_rows_run df w :
  ∃ w',
    get_statistics_rows df w
      = (Ok (row_of df w <$> unique (col_Type <$> df)), w')
    ∧ entries_added (range (length df)) w w'.
Proof.
  unfold get_statistics_rows.
  destruct (count_types_run df (unique (col_Type <$> df)) [] w)
    as (w' & Hrun & Hadd).
  exists w'. split; [done|].
  eapply entries_added_weaken; [exact Hadd| |].
  - intros i. by rewrite elem_of_types_pairs.
  - intros i Hi. left. by apply elem_of_types_pairs.
Qed.


Lemma entries_added_all_initialised df w w' :
  entries_added (range (length df)) w w' → all_initialised df w'.
Proof.
  intros (_ & _ & Hsome & Hnew & _) i Hi.
  destruct (progress (st w) !! i) as [p|] eqn:Hp.
  - exists p. by apply Hsome.
  - destruct (Hnew i Hp Hi) as (k & _ & ->). by eexists.
Qed.


(** X15: [get_statistics] leaves every pair of the catalogue with an
    entry.  The entries that were there are kept as they are; a pair of
    the catalogue without one gets a fresh entry stamped with a clock
    reading taken during the call; no other pair gets an entry, and apart
    from the progress map and the clock readings nothing changes: the
    snapshot file is not written. *)
Theorem get_statistics_rows_initialises df w :
  ∃ rows w',
    get_statistics_rows df w = (Ok rows, w')
    ∧ all_initialised df w'
    ∧ w' = set_st (set_progress (λ _, progress (st w')))
             (set_ticks (ticks w') w)
    ∧ progress_file w' = progress_file w
    ∧ (∀ i p, progress (st w) !! i = Some p →
         progress (st w') !! i = Some p)
    ∧ (∀ i, progress (st w) !! i = None → i ∈ range (length df) →
         ∃ k, (ticks w ≤ k < ticks w')%nat
              ∧ progress (st w') !! i = Some (new_entry (clock w k)))
    ∧ (∀ i, progress (st w) !! i = None → i ∉ range (length df) →
         progress (st w') !! i = None).
Proof.
  destruct (get_statistics_rows_run df w) as (w' & Hrun & Hadd).
  eexists _, w'. split; [exact Hrun|].
  split; [by eapply entries_added_all_initialised|].
  destruct Hadd as (Hw & _ & Hsome & Hnew & Hnone).
  split; [done|]. split; [by rewrite Hw|]. done.
Qed.

Lemma filter_all {A} (P : A → Prop) `{∀ x, Decision (P x)} (l : list A) :
  (∀ x, x ∈ l → P x) → filter P l = l.
Proof.
  induction l as [|x l IH]; intros Hall; [done|].
  rewrite filter_cons_True by (apply Hall; by left).
  f_equal. apply IH. intros y ?. apply Hall. by right.
Qed.

(** Counting over the rows of one type and over the rows of other types
    is counting over the rows of all of them. *)
Lemma length_filter_split {A} (P : Z → Prop) (Q R S : A → Prop)
    `{∀ i, Decision (P i)} `{∀ x, Decision (Q x)} `{∀ x, Decision (R x)}
    `{∀ x, Decision (S x)} (f : A → Z) (l : list A) :
  (∀ x, S x ↔ Q x ∨ R x) →
  (∀ x, Q x → R x → False) →
  length (filter P (f <$> filter S l))
  = (length (filter P (f <$> filter Q l))
     + length (filter P (f <$> filter R l)))%nat.
Proof.
  intros Hor Hdisj. induction l as [|x l IH]; [done|].
  rewrite !filter_cons.
  destruct (decide (S x)) as [Hs|Hs], (decide (Q x)) as [Hq|Hq],
    (decide (R x)) as [Hr|Hr]; cbn [fmap list_fmap];
    rewrite ?filter_cons; try destruct (decide (P (f x)));
    cbn [length]; try lia.
  all: exfalso; first [by eapply Hdisj | apply Hor in Hs as [?|?]; done
                      | apply Hs, Hor; by (left + right)].
Qed.

Lemma mastered_sum_rows df w types :
  NoDup types →
  mastered_sum (row_of df w <$> types)
  = Z.of_nat (length (mastered_of w
      (fst <$> filter (λ ir, col_Type ir.2 ∈ types)
                 (zip (range (length df)) df)))).
Proof.
  induction 1 as [|t types Ht Hnd IH]; cbn [fmap list_fmap mastered_sum foldr].
  - rewrite (list_filter_iff _ (λ _, False))
      by (intros ?; by rewrite elem_of_nil).
    assert (∀ l : list (Z * row), filter (λ _, False) l = []) as ->; [|done].
    induction l as [|x l IHl]; [done|].
    by rewrite filter_cons_False by (by intros []).
  - fold (mastered_sum (row_of df w <$> types)). rewrite IH.
    cbn [stats_Mastered row_of].
    unfold mastered_of, type_pairs.
    rewrite (length_filter_split _
      (λ ir : Z * row, col_Type ir.2 = t)
      (λ ir : Z * row, col_Type ir.2 ∈ types)
      (λ ir : Z * row, col_Type ir.2 ∈ t :: types)).
    + lia.
    + intros x. by rewrite elem_of_cons.
    + intros x <- ?. done.
Qed.

(** X16: the column ["Mastered"] of the table of [get_statistics] sums to
    the total mastery that [render_scoreboard] shows under the table. *)
Theorem scoreboard_mastered_sum df w :
  ∃ rows w' total w'',
    get_statistics_rows df w = (Ok rows, w')
    ∧ total_mastered df w' = (Ok total, w'')
    ∧ mastered_sum rows = Z.of_nat total.
Proof.
  destruct (get_statistics_rows_run df w) as (w' & Hrun & Hadd).
  eexists _, w', _, w'. split; [exact Hrun|]. split; [reflexivity|].
  rewrite mastered_sum_rows by apply NoDup_unique_from.
  rewrite filter_all.
  - rewrite fst_zip by (unfold range; rewrite length_seqZ; lia).
    f_equal. f_equal. symmetry.
    exact (entries_added_mastered_of _ _ _ _ Hadd).
  - intros [i r] Hin. cbn. apply elem_of_unique, list_elem_of_fmap.
    exists r. split; [done|]. by apply elem_of_zip_r in Hin.
Qed.

Lemma all_reviewed_present now ids : ∀ w,
  (∀ id, id ∈ ids → is_Some (progress (st w) !! id)) →
  ∃ b, all_reviewed now ids w = (Ok b, w).
Proof.
  induction ids as [|id ids IH]; intros w Hall; [by exists true|].
  destruct (Hall id) as [p Hp]; [by left|].
  cbn [all_reviewed]. unfold bind at 1.
  rewrite (init_pair_progress_present _ _ _ Hp).
  unfold bind at 1, progress_get. run. rewrite Hp. run.
  destruct (negb (ever_correct p) || (next_review p <=? now));
    [by exists false|].
  apply IH. intros id' Hid'. apply Hall. by right.
Qed.

(** Once every pair has an entry, [session_complete] only reads the
    clock, once or twice. *)
Lemma session_complete_present strftime_Ymd df w :
  all_initialised df w →
  ∃ b k, session_complete strftime_Ymd df w
           = (Ok b, set_ticks (ticks w + k) w).
Proof.
  intros Hall. unfold session_complete. unfold bind at 1.
  rewrite daily_target_reached_run.
  destruct (_ <=? _).
  - exists true, 1%nat. by rewrite Nat.add_1_r.
  - unfold bind at 1, datetime_now. cbn [clock ticks set_ticks].
    match goal with |- context [all_reviewed ?now ?ids ?w0] =>
      destruct (all_reviewed_present now ids w0) as [b ->] end.
    { intros id Hid. by apply Hall. }
    exists b, 2%nat. by replace (ticks w + 2)%nat with (S (S (ticks w))) by lia.
Qed.

(** X17: in the order of [main], where the scoreboard is rendered and
    [session_complete] is asked before a question is chosen,
    [select_next_pair] finds a pair whenever a pair of the catalogue had no
    entry and the clock does not run backwards: the entry [get_statistics]
    creates for it is due by the time [select_next_pair] reads the
    clock. *)
Theorem scoreboard_then_select_next_pair strftime_Ymd df w pair_id :
  monotone_clock w →
  pair_id ∈ range (length df) →
  progress (st w) !! pair_id = None →
  ∃ rows w1 complete w2 selected w3,
    get_statistics_rows df w = (Ok rows, w1)
    ∧ session_complete strftime_Ymd df w1 = (Ok complete, w2)
    ∧ select_next_pair df w2 = (Ok (Some selected), w3)
    ∧ selected ∈ range (length df).
Proof.
  intros Hmono Hid Hnone.
  destruct (get_statistics_rows_run df w) as (w1 & Hrun & Hadd).
  pose proof (entries_added_all_initialised _ _ _ Hadd) as Hall.
  destruct Hadd as (Hw & _ & _ & Hnew & _).
  destruct (Hnew _ Hnone Hid) as (k & Hk & Hp).
  assert (clock w1 = clock w) as Hclock by (by rewrite Hw).
  destruct (session_complete_present strftime_Ymd df w1 Hall)
    as (complete & n & Hcomplete).
  set (w2 := set_ticks (ticks w1 + n) w1) in *.
  assert (all_initialised df w2) as Hall2 by exact Hall.
  pose proof (proj1 (elem_of_range _ _) Hid) as Hrange.
  destruct (lookup_lt_is_Some_2 df (Z.to_nat pair_id)) as [r Hr]; [lia|].
  assert ((pair_id, clock w k, col_Type r)
          ∈ due_list df w2 (clock w2 (ticks w2)) (range (length df)))
    as Hdue.
  { apply elem_of_due_list. exists pair_id, (new_entry (clock w k)), r.
    split; [done|]. split; [done|]. split; [done|]. split; [|done].
    cbn. rewrite Hclock. apply Hmono. lia. }
  destruct (select_next_pair_run df w2 Hall2)
    as (sel & w3 & Hsel & Hin & _).
  { intros E. rewrite E in Hdue. by apply elem_of_nil in Hdue. }
  exists (row_of df w <$> unique (col_Type <$> df)), w1, complete, w2,
    sel.1.1, w3.
  split; [done|]. split; [done|]. split; [done|].
  apply elem_of_urgent_of in Hin as [Hin _].
  apply elem_of_due_list in Hin as (id & p & r' & Hin & _ & _ & _ & ->).
  done.
Qed.

(** *** Loading at start-up *)

Section StoreProps.

Variable str_of_int : Z → string.
Variable int_of_str : string → option Z.
Variable isoformat : Z → string.
Variable fromisoformat : string → option Z.

(** Every entry the loop of [load_progress] builds comes from a member of
    ["progress"]. *)
Lemma load_entries_keys items : ∀ loaded_progress m,
  load_entries int_of_str fromisoformat items loaded_progress = Ok m →
  ∀ i, is_Some (m !! i) →
    is_Some (loaded_progress !! i)
    ∨ ∃ key data, (key, data) ∈ items ∧ int_of_str key = Some i.
Proof.
  induction items as [|[key data] items IH]; intros m0 m Hload i Hi.
  - cbn in Hload. injection Hload as <-. by left.
  - cbn [load_entries] in Hload.
    destruct (loaded_entry fromisoformat data) as [p|]; [|done].
    destruct (int_of_str key) as [k|] eqn:Hkey; [|done]. cbn in Hload.
    destruct (IH _ _ Hload i Hi) as [Hin|(key' & data' & Hin & Hk)].
    + destruct (decide (i = k)) as [->|Hne].
      * right. exists key, data. split; [by left|done].
      * left. by rewrite lookup_insert_ne in Hin.
    + right. exists key', data'. split; [by right|done].
Qed.

(** X18: [load_progress] returns [True] exactly when the file exists and
    can be read without an exception.  The session then holds what the
    file holds and nothing else: every entry of the progress map comes
    from a member of ["progress"], so the entries the session had are
    dropped; a counter or the daily statistics missing from the file are
    reset to [0] and to the empty dictionary; [extra_questions_added] and
    the type shown last are kept, and no message is shown. *)
Theorem load_progress_succeeds w :
  ∃ b w',
    load_progress int_of_str fromisoformat w = (Ok b, w')
    ∧ (b = true ↔
         ∃ c, progress_file w = Some c
              ∧ snapshot_error int_of_str fromisoformat c = None)
    ∧ (b = true →
         ∃ d, progress_file w = Some (Document d)
           ∧ (∀ i, is_Some (progress (st w') !! i) →
                ∃ key data,
                  (key, data) ∈ get_default (doc_progress d) []
                  ∧ int_of_str key = Some i)
           ∧ session_correct (st w') = get_default (doc_session_correct d) 0
           ∧ session_total (st w') = get_default (doc_session_total d) 0
           ∧ current_streak (st w') = get_default (doc_current_streak d) 0
           ∧ daily_stats (st w') = get_default (doc_daily_stats d) ∅
           ∧ extra_questions_added (st w') = extra_questions_added (st w)
           ∧ last_shown_type (st w') = last_shown_type (st w)
           ∧ progress_file w' = progress_file w
           ∧ ui w' = ui w).
Proof.
  unfold load_progress, snapshot_error. run.
  destruct (progress_file w) as [[|d]|] eqn:Hfile; cbn [json_load].
  - eexists _, _. split; [reflexivity|]. split; [|done].
    split; [done|]. by intros (c & [= <-] & ?).
  - destruct (load_entries int_of_str fromisoformat
                (get_default (doc_progress d) []) ∅) as [m|e] eqn:Hload.
    + eexists _, _. split; [reflexivity|]. split.
      * split; [|done]. intros _. exists (Document d). cbn. by rewrite Hload.
      * intros _. exists d. split; [done|]. cbn. split; [|done].
        intros i Hi.
        destruct (load_entries_keys _ _ _ Hload i Hi) as [[? Hin]|?]; [|done].
        by rewrite lookup_empty in Hin.
    + eexists _, _. split; [reflexivity|]. split; [|done].
      split; [done|]. intros (c & [= <-] & Hnone). cbn in Hnone.
      by rewrite Hload in Hnone.
  - eexists _, _. split; [reflexivity|]. split; [|done].
    split; [done|]. by intros (c & ? & _).
Qed.

(** X19: a snapshot that cannot be read is not kept.  At start-up the
    session begins empty with the file still in place; the first answer
    recorded then overwrites the file, when it can be written, with a
    snapshot that holds this one answer and no daily statistics. *)
Theorem corrupt_snapshot_overwritten w c e pair_id is_correct :
  progress_file w = Some c →
  snapshot_error int_of_str fromisoformat c = Some e →
  disk_writable w = true →
  ∃ w1 w2,
    init_session_state int_of_str fromisoformat w = (Ok (), w1)
    ∧ st w1 = new_session_state
    ∧ progress_file w1 = Some c
    ∧ ui w1 = ui w ++ [error_load e]
    ∧ update_progress str_of_int isoformat pair_id is_correct w1
        = (Ok (), w2)
    ∧ ∃ d,
        progress_file w2 = Some (Document d)
        ∧ doc_progress d
          = Some [(str_of_int pair_id,
                   serializable_entry isoformat
                     (answered is_correct (clock w (S (ticks w)))
                        (new_entry (clock w (ticks w)))))]
        ∧ doc_daily_stats d = Some ∅.
Proof.
  intros Hfile Herr Hdisk.
  assert (init_session_state int_of_str fromisoformat w
          = (Ok (), add_ui (error_load e)
                      (set_st (λ _, new_session_state) w))) as Hinit.
  { unfold init_session_state, load_progress, snapshot_error in *. run.
    rewrite Hfile.
    destruct (json_load c) as [d|e']; [|by injection Herr as ->].
    destruct (load_entries _ _ _ _); [done|by injection Herr as ->]. }
  set (w1 := add_ui _ _) in Hinit.
  destruct (update_progress_then_save str_of_int isoformat
              pair_id is_correct w1)
    as (w0 & Hrun & Hst & Hclock & Hticks & _ & Hdisk0 & _).
  rewrite save_progress_file in Hrun.
  rewrite Hdisk0 in Hrun. unfold w1 in Hrun at 2. cbn in Hrun.
  rewrite Hdisk in Hrun. cbn [snd] in Hrun.
  eexists w1, _. split; [exact Hinit|]. split; [done|].
  split; [done|]. split; [done|]. split; [exact Hrun|].
  eexists. split; [reflexivity|]. unfold snapshot_of. cbn.
  rewrite Hst. cbn. split; [|done].
  rewrite insert_empty, map_to_list_singleton. cbn.
  unfold entry_at, recording_tick. cbn. by rewrite lookup_empty.
Qed.

End StoreProps.

(** *** Audio generation, run after run *)

Lemma generate_single_audio_file t w :
  ∃ res w',
    generate_single_audio t w = (Ok res, w')
    ∧ tts w' = tts w
    ∧ completion_order w' = completion_order w
    ∧ (∀ pth, pth ≠ t.2 → audio_files w' !! pth = audio_files w !! pth)
    ∧ audio_files w' !! t.2
      = written (tts w t.1.2 13 t.2) (audio_files w !! t.2).
Proof.
  destruct t as [[[pair_id word_type] text] output_path].
  unfold generate_single_audio, generate_audio_tts, random_choice, randbelow,
    SPEAKER_IDS. run.
  cbn [length fst snd]. rewrite Nat.mod_1_r. cbn [lookup list_lookup].
  run.
  destruct (tts w text 13 output_path) as [wav| |partial] eqn:Htts; run;
    (eexists _, _; split; [done|split; [done|split; [done|]]]); cbn;
    (split; [intros pth Hne; by rewrite ?lookup_insert_ne|]);
    by rewrite ?lookup_insert_eq.
Qed.

(** Once the pool has run tasks with distinct destinations, each
    destination holds what the call of the service for its task left. *)
Lemma run_completed_files done : ∀ failed w,
  NoDup ((λ t : task, t.2) <$> done) →
  ∃ failed' w',
    run_completed done failed w = (Ok failed', w')
    ∧ tts w' = tts w
    ∧ completion_order w' = completion_order w
    ∧ (∀ pth, pth ∉ ((λ t : task, t.2) <$> done) →
         audio_files w' !! pth = audio_files w !! pth)
    ∧ ∀ t, t ∈ done →
        audio_files w' !! t.2
        = written (tts w t.1.2 13 t.2) (audio_files w !! t.2).
Proof.
  induction done as [|t done IH]; intros failed w Hnd.
  - exists failed, w. split; [done|]. repeat split; try done.
    by intros t ?%elem_of_nil.
  - rewrite fmap_cons in Hnd. apply NoDup_cons in Hnd as [Hnotin Hnd].
    cbn [run_completed]. unfold bind at 1.
    destruct (generate_single_audio_file t w)
      as ([[[ok pair_id] word_type] e] & w1 & -> & Htts & Horder & Hfiles
          & Hfile).
    destruct (IH (if ok then failed else failed ++ [(pair_id, word_type, e)])
                w1 Hnd)
      as (failed' & w' & -> & Htts' & Horder' & Hfiles' & Hfile').
    exists failed', w'. split; [done|]. split; [congruence|].
    split; [congruence|]. split.
    + intros pth Hout. rewrite fmap_cons in Hout.
      apply not_elem_of_cons in Hout as [Hne Hout].
      rewrite Hfiles' by done. by apply Hfiles.
    + intros t' [->|Hin]%elem_of_cons.
      * by rewrite Hfiles'.
      * rewrite (Hfile' t' Hin), Htts. f_equal. apply Hfiles.
        intros Heq. apply Hnotin. rewrite <- Heq.
        apply list_elem_of_fmap. by exists t'.
Qed.

Lemma prepare_tasks_for df missing_files : ∀ tasks w,
  (∀ i l, (i, l) ∈ missing_files → 0 <= i < Z.of_nat (length df)) →
  prepare_tasks df missing_files tasks w
    = (Ok (tasks ++ (task_for df <$> missing_files)), w).
Proof.
  induction missing_files as [|[i l] missing_files IH]; intros tasks w Hrange.
  - cbn. by rewrite app_nil_r.
  - cbn [prepare_tasks]. unfold bind at 1.
    assert (0 <= i < Z.of_nat (length df)) as Hi
      by (apply (Hrange i l); by left).
    destruct (lookup_lt_is_Some_2 df (Z.to_nat i)) as [r Hr]; [lia|].
    rewrite (iloc_row df i r w) by (lia || done).
    rewrite IH by (intros j k Hin; apply (Hrange j k); by right).
    rewrite <- app_assoc. cbn [app fmap list_fmap]. do 4 f_equal.
    unfold task_for, task_text. cbn [fst snd]. rewrite Hr. by destruct l.
Qed.

Lemma generate_all_audio_run_files df w :
  (∀ tasks, completion_order w tasks ≡ₚ tasks) →
  ∃ r w',
    generate_all_audio_run df w = (Ok r, w')
    ∧ run_missing_files r = missing_of w (range (length df))
    ∧ tts w' = tts w
    ∧ completion_order w' = completion_order w
    ∧ ∀ i l, 0 <= i < Z.of_nat (length df) →
        audio_files w' !! (i, l)
        = match audio_files w !! (i, l) with
          | Some wav => Some wav
          | None => written (tts w (task_text df i l) 13 (i, l)) None
          end.
Proof.
  intros Horder.
  set (missing := missing_of w (range (length df))).
  assert (∀ i l, (i, l) ∈ missing ↔
            0 <= i < Z.of_nat (length df) ∧ audio_files w !! (i, l) = None)
    as Hmissing.
  { intros i l. unfold missing. by rewrite elem_of_missing_of, elem_of_range. }
  assert (NoDup missing) as Hnd
    by (apply NoDup_missing_of, NoDup_seqZ).
  unfold generate_all_audio_run. unfold bind at 1.
  rewrite scan_missing_run, app_nil_l. fold missing.
  destruct missing as [|m0 missing'] eqn:Hmiss.
  - run. eexists _, _. split; [done|]. cbn. repeat split; try done.
    intros i l Hi.
    destruct (audio_files w !! (i, l)) eqn:Hfile; [done|].
    exfalso. eapply elem_of_nil, Hmissing. by split.
  - rewrite <- Hmiss in *. clear Hmiss m0 missing'.
    unfold bind at 1, st_message at 1, modify at 1.
    set (w0 := add_ui (info_generating (length missing)) w).
    unfold bind at 1. rewrite prepare_tasks_for, app_nil_l
      by (intros i l Hin; by apply Hmissing in Hin as [? _]).
    unfold bind at 1, get at 1.
    change (completion_order w0) with (completion_order w).
    set (tasks := task_for df <$> missing).
    assert ((λ t : task, t.2) <$> tasks = missing) as Hpaths.
    { unfold tasks. rewrite <- list_fmap_compose.
      erewrite list_fmap_ext; [|intros ? k ?; exact (eq_refl (id k))].
      by rewrite list_fmap_id. }
    destruct (run_completed_files (completion_order w tasks) [] w0)
      as (failed & w1 & Hpool & Htts & Hord & Hfiles & Hfile).
    { by rewrite (Horder tasks), Hpaths. }
    unfold bind at 1. rewrite Hpool.
    assert (∀ i l, 0 <= i < Z.of_nat (length df) →
              audio_files w1 !! (i, l)
              = match audio_files w !! (i, l) with
                | Some wav => Some wav
                | None => written (tts w (task_text df i l) 13 (i, l)) None
                end) as Hafter.
    { intros i l Hi. destruct (audio_files w !! (i, l)) as [wav|] eqn:Hw.
      - rewrite Hfiles; [done|]. rewrite (Horder tasks), Hpaths.
        intros [_ Hnone]%Hmissing. congruence.
      - assert ((i, l) ∈ missing) as Hin by (by apply Hmissing).
        assert (task_for df (i, l) ∈ completion_order w tasks) as Hin'.
        { rewrite (Horder tasks). unfold tasks.
          apply list_elem_of_fmap. by exists (i, l). }
        pose proof (Hfile _ Hin') as Hleft. unfold w0 in Hleft.
        cbn in Hleft. by rewrite Hleft, Hw. }
    destruct failed as [|f failed]; run;
      eexists _, _; (split; [done|]); cbn; by repeat split.
Qed.

(** X20: when every file of the catalogue is there, [generate_all_audio]
    returns [True] after one message: it draws no speaker, calls no
    service and writes no file. *)
Theorem generate_all_audio_nothing_missing df w :
  (∀ i l, 0 <= i < Z.of_nat (length df) →
     is_Some (audio_files w !! (i, l))) →
  generate_all_audio df w
    = (Ok true,
       add_ui (success_all_exist (Z.of_nat (length df) * 2)) w).
Proof.
  intros Hall.
  assert (missing_of w (range (length df)) = []) as Hnone.
  { apply elem_of_nil_inv. intros [i l] [Hi Hfile]%elem_of_missing_of.
    apply elem_of_range in Hi. destruct (Hall i l Hi) as [? ?]. congruence. }
  unfold generate_all_audio, generate_all_audio_run. unfold bind at 1 2.
  by rewrite scan_missing_run, app_nil_l, Hnone.
Qed.

(** X21: what [generate_all_audio] leaves behind, and what the next run
    does with it.  A file that was there is kept.  A missing file is there
    afterwards when the service answered, and also, in part, when the
    write failed; it is still missing only when the request failed.  So
    the next run takes as missing exactly the files whose request failed
    in this one: a file cut short by a failed write is never generated
    again. *)
Theorem generate_all_audio_again df w :
  (∀ tasks, completion_order w tasks ≡ₚ tasks) →
  ∃ r w',
    generate_all_audio_run df w = (Ok r, w')
    ∧ (∀ i l, 0 <= i < Z.of_nat (length df) →
         audio_files w' !! (i, l)
         = match audio_files w !! (i, l) with
           | Some wav => Some wav
           | None => written (tts w (task_text df i l) 13 (i, l)) None
           end)
    ∧ ∃ r2 w2,
        generate_all_audio_run df w' = (Ok r2, w2)
        ∧ ∀ i l, (i, l) ∈ run_missing_files r2 ↔
            0 <= i < Z.of_nat (length df)
            ∧ audio_files w !! (i, l) = None
            ∧ tts w (task_text df i l) 13 (i, l) = RequestFailed.
Proof.
  intros Horder.
  destruct (generate_all_audio_run_files df w Horder)
    as (r & w' & Hrun & _ & Htts & Hord & Hafter).
  exists r, w'. split; [done|]. split; [done|].
  destruct (generate_all_audio_run_files df w')
    as (r2 & w2 & Hrun2 & Hmissing2 & _).
  { intros tasks. by rewrite Hord. }
  exists r2, w2. split; [done|]. intros i l.
  rewrite Hmissing2, elem_of_missing_of, elem_of_range. split.
  - intros [Hi Hnone]. split; [done|]. rewrite (Hafter i l Hi) in Hnone.
    destruct (audio_files w !! (i, l)); [done|]. split; [done|].
    by destruct (tts w (task_text df i l) 13 (i, l)).
  - intros (Hi & Hnone & Hfail). split; [done|].
    by rewrite (Hafter i l Hi), Hnone, Hfail.
Qed.

(** *** The word sent to the service *)



(** *** More questions *)

Section MoreQuestions.

Variable str_of_int : Z → string.
Variable isoformat : Z → string.
Variable strftime_Ymd : Z → string.

(** X23: [Add 5 More Questions] raises the target by five, saves, and
    changes neither the progress map nor the daily statistics.  As long as
    the clock stays on the same day, [daily_target_reached] then answers
    [True] exactly when today's count has reached the target it had plus
    five. *)
Theorem add_more_questions_raises_target w :
  strftime_Ymd (clock w (S (ticks w))) = strftime_Ymd (clock w (ticks w)) →
  ∃ w',
    add_more_questions str_of_int isoformat w = (Ok (), w')
    ∧ get_current_target w'
        = (Ok (DAILY_TARGET + extra_questions_added (st w) + 5), w')
    ∧ progress (st w') = progress (st w)
    ∧ daily_stats (st w') = daily_stats (st w)
    ∧ ∃ b w'',
        daily_target_reached strftime_Ymd w' = (Ok b, w'')
        ∧ (b = true ↔
             DAILY_TARGET + extra_questions_added (st w) + 5
               <= answered_today strftime_Ymd w).
Proof.
  intros Hday. unfold add_more_questions. run.
  rewrite save_progress_file. cbn.
  assert (∀ w', st w' = {| progress := progress (st w);
                   session_correct := session_correct (st w);
                   session_total := session_total (st w);
                   current_streak := current_streak (st w);
                   daily_stats := daily_stats (st w);
                   extra_questions_added := extra_questions_added (st w) + 5;
                   last_shown_type := last_shown_type (st w) |} →
            clock w' = clock w → ticks w' = S (ticks w) →
            get_current_target w'
              = (Ok (DAILY_TARGET + extra_questions_added (st w) + 5), w')
            ∧ progress (st w') = progress (st w)
            ∧ daily_stats (st w') = daily_stats (st w)
            ∧ ∃ b w'',
                daily_target_reached strftime_Ymd w' = (Ok b, w'')
                ∧ (b = true ↔
                     DAILY_TARGET + extra_questions_added (st w) + 5
                       <= answered_today strftime_Ymd w)) as Hrest.
  { intros w' Hst Hclock Hticks. unfold get_current_target. run.
    rewrite Hst. cbn. split; [by rewrite Z.add_assoc|].
    split; [done|]. split; [done|].
    rewrite daily_target_reached_run. eexists _, _. split; [reflexivity|].
    unfold answered_today. rewrite Hst, Hclock, Hticks, Hday. cbn.
    by rewrite Z.leb_le, Z.add_assoc. }
  destruct (disk_writable w); cbn;
    (eexists; split; [reflexivity|]); by apply Hrest.
Qed.

End MoreQuestions.

(** ** The further properties at concrete inputs *)

Lemma all_initialised_due_world : all_initialised catalogue3 due_world.
Proof.
  intros i Hi. apply elem_of_range in Hi. cbn in Hi.
  assert (i = 0 ∨ i = 1 ∨ i = 2) as Hcases by lia.
  destruct Hcases as [Hi0|[Hi1|Hi2]]; subst i;
    exists (new_entry 0); reflexivity.
Defined.

Lemma select_next_pair_selects_due_witness :
  all_initialised catalogue3 due_world
  ∧ ∃ res w',
      select_next_pair catalogue3 due_world = (Ok res, w')
      ∧ progress (st w') = progress (st due_world)
      ∧ res ≠ None.
Proof.
  split; [exact all_initialised_due_world|].
  destruct (select_next_pair_selects_due catalogue3 due_world
              all_initialised_due_world)
    as (res & w' & Hrun & Hprog & Hnone & _).
  exists res, w'. split; [assumption|]. split; [assumption|].
  intros Hres.
  assert (0 < 0) as Hlt; [|lia].
  apply (proj1 Hnone Hres 0 (new_entry 0));
    [apply elem_of_range; cbn; lia|reflexivity].
Defined.

Lemma all_initialised_due_world_first : all_initialised catalogue1 due_world.
Proof.
  intros i Hi. apply elem_of_range in Hi. cbn in Hi.
  assert (i = 0) as Hi0 by lia. subst i.
  exists (new_entry 0). reflexivity.
Defined.

(** With one pair due the type shown last is shown again: nothing else
    can be chosen. *)
Lemma select_next_pair_repeats_type_only_if_forced_witness :
  all_initialised catalogue1 due_world
  ∧ last_shown_type (st due_world) = Some "voicing"
  ∧ select_next_pair catalogue1 due_world
    = (Ok (Some 0), (select_next_pair catalogue1 due_world).2)
  ∧ last_shown_type (st (select_next_pair catalogue1 due_world).2)
    = Some "voicing"
  ∧ ((∀ q, q ∈ urgent_of
               (due_list catalogue1 due_world
                  (clock due_world (ticks due_world))
                  (range (length catalogue1))) →
           q.2 = "voicing")
     ∨ ∃ sel,
         urgent_of
           (due_list catalogue1 due_world
              (clock due_world (ticks due_world))
              (range (length catalogue1))) = [sel]
         ∧ sel.1.1 = 0).
Proof.
  split; [exact all_initialised_due_world_first|].
  split; [reflexivity|]. split; [vm_compute; reflexivity|].
  split; [vm_compute; reflexivity|].
  apply (select_next_pair_repeats_type_only_if_forced catalogue1 due_world
           "voicing" 0 (select_next_pair catalogue1 due_world).2
           all_initialised_due_world_first);
    vm_compute; reflexivity.
Defined.





Lemma continue_practice_reopens_witness :
  continue_practice catalogue1 practised_world
    = (Ok (), (continue_practice catalogue1 practised_world).2)
  ∧ monotone_clock practised_world
  ∧ catalogue1 ≠ []
  ∧ is_Some (progress (st practised_world) !! 0)
  ∧ answered_today decimal_day
      (continue_practice catalogue1 practised_world).2
    < DAILY_TARGET
      + extra_questions_added
          (st (continue_practice catalogue1 practised_world).2)
  ∧ (session_complete decimal_day catalogue1
       (continue_practice catalogue1 practised_world).2).1 = Ok false.
Proof.
  assert (is_Some (progress (st practised_world) !! 0)) as Hentry
    by (exists learnt_entry; reflexivity).
  assert (catalogue1 ≠ []) as Hdf by discriminate.
  split; [vm_compute; reflexivity|].
  split; [exact monotone_clock_new_world|]. split; [exact Hdf|].
  split; [exact Hentry|]. split; [vm_compute; reflexivity|].
  apply (continue_practice_reopens decimal_day catalogue1 practised_world
           (continue_practice catalogue1 practised_world).2);
    [vm_compute; reflexivity | exact monotone_clock_new_world | exact Hdf
    | exact Hentry | vm_compute; reflexivity].
Defined.

Lemma scoreboard_then_select_next_pair_witness :
  monotone_clock new_world
  ∧ 0 ∈ range (length catalogue1)
  ∧ progress (st new_world) !! 0 = None
  ∧ ∃ rows w1 complete w2 selected w3,
      get_statistics_rows catalogue1 new_world = (Ok rows, w1)
      ∧ session_complete decimal_day catalogue1 w1 = (Ok complete, w2)
      ∧ select_next_pair catalogue1 w2 = (Ok (Some selected), w3)
      ∧ selected ∈ range (length catalogue1).
Proof.
  assert (0 ∈ range (length catalogue1)) as Hid
    by (apply elem_of_range; simpl; lia).
  split; [exact monotone_clock_new_world|]. split; [exact Hid|].
  split; [reflexivity|].
  exact (scoreboard_then_select_next_pair decimal_day catalogue1 new_world 0
           monotone_clock_new_world Hid eq_refl).
Defined.

Lemma corrupt_snapshot_overwritten_witness :
  progress_file corrupt_world = Some Unparsable
  ∧ snapshot_error int_of_decimal int_of_decimal Unparsable
    = Some JSONDecodeError
  ∧ disk_writable corrupt_world = true
  ∧ ∃ w1 w2,
      init_session_state int_of_decimal int_of_decimal corrupt_world
        = (Ok (), w1)
      ∧ progress_file w1 = Some Unparsable
      ∧ update_progress decimal_of_int decimal_of_int 0 true w1 = (Ok (), w2)
      ∧ ∃ d, progress_file w2 = Some (Document d)
             ∧ doc_daily_stats d = Some ∅.
Proof.
  split; [reflexivity|]. split; [reflexivity|]. split; [reflexivity|].
  destruct (corrupt_snapshot_overwritten decimal_of_int int_of_decimal
              decimal_of_int int_of_decimal corrupt_world Unparsable
              JSONDecodeError 0 true eq_refl eq_refl eq_refl)
    as (w1 & w2 & Hinit & _ & Hfile & _ & Hrun & d & Hfile2 & _ & Hdaily).
  exists w1, w2. split; [assumption|]. split; [assumption|].
  split; [assumption|]. exists d. split; assumption.
Defined.

Lemma all_files_stocked_world :
  ∀ i l, 0 <= i < Z.of_nat (length catalogue1) →
    is_Some (audio_files stocked_world !! (i, l)).
Proof.
  intros i l Hi. simpl in Hi. assert (i = 0) as Hi0 by lia. subst i.
  exists "RIFF". destruct l; reflexivity.
Defined.

Lemma generate_all_audio_nothing_missing_witness :
  (∀ i l, 0 <= i < Z.of_nat (length catalogue1) →
     is_Some (audio_files stocked_world !! (i, l)))
  ∧ generate_all_audio catalogue1 stocked_world
    = (Ok true, add_ui (success_all_exist 2) stocked_world).
Proof.
  split; [exact all_files_stocked_world|].
  exact (generate_all_audio_nothing_missing catalogue1 stocked_world
           all_files_stocked_world).
Defined.

(** In [failing_world] the request for the second word of pair [1] fails:
    the next run takes that file as missing. *)
Lemma generate_all_audio_again_witness :
  (∀ tasks, completion_order failing_world tasks ≡ₚ tasks)
  ∧ ∃ r w' r2 w2,
      generate_all_audio_run catalogue3 failing_world = (Ok r, w')
      ∧ generate_all_audio_run catalogue3 w' = (Ok r2, w2)
      ∧ (1, LB) ∈ run_missing_files r2.
Proof.
  assert (∀ tasks, completion_order failing_world tasks ≡ₚ tasks) as Horder
    by (intros tasks; apply reverse_Permutation).
  split; [exact Horder|].
  destruct (generate_all_audio_again catalogue3 failing_world Horder)
    as (r & w' & Hrun & _ & r2 & w2 & Hrun2 & Hmissing).
  exists r, w', r2, w2. split; [assumption|]. split; [assumption|].
  apply Hmissing. split; [simpl; lia|]. split; reflexivity.
Defined.


Lemma add_more_questions_raises_target_witness :
  decimal_day (clock new_world (S (ticks new_world)))
    = decimal_day (clock new_world (ticks new_world))
  ∧ ∃ w',
      add_more_questions decimal_of_int decimal_of_int new_world
        = (Ok (), w')
      ∧ get_current_target w' = (Ok 25, w')
      ∧ ∃ b w'',
          daily_target_reached decimal_day w' = (Ok b, w'')
          ∧ (b = true ↔ 25 <= answered_today decimal_day new_world).
Proof.
  split; [vm_compute; reflexivity|].
  destruct (add_more_questions_raises_target decimal_of_int decimal_of_int
              decimal_day new_world)
    as (w' & Hrun & Htarget & _ & _ & Hreached);
    [vm_compute; reflexivity|].
  exists w'. split; [assumption|]. split; assumption.
Defined.
